(** * FS.Collection (common.js): constructor, filter normalisation and
      sync callbacks of the CollectionFS file collection.

    - [JS]: the JavaScript values the constructor inspects at run time
      (truthiness, typeof, property reads and writes, the underscore
      helpers it calls);
    - [Ctor]: the constructor [FS.Collection], lines 17-227, as a
      computation that returns an exception or the constructed object and
      acts on the process-wide registry;
    - [Info], [Copy], [FileInfo], [File], [Modifier]: the objects that
      pass through the sync callbacks;
    - [Files]: the documents of [self.files], the sync callbacks of lines
      157-220, the deny rules of lines 109-120 and the Filter Engine.

    Strings are byte strings. The callbacks registered for a store act on
    the documents of the collection that registered them. *)

From Stdlib Require Import ZArith Ascii String List.
From stdpp Require Import base option gmap strings list fin_maps pretty.

Open Scope string_scope.
Local Set Warnings "-register-all".

(* ===================================================================== *)
(** ** JavaScript values *)
(* ===================================================================== *)

Module JS.

(** What [obj.constructor] is: a plain object literal, or an instance of
    FS.StorageAdapter (which carries its store name). *)
Inductive cls :=
  | Plain
  | Adapter (name : string).

(** Run-time values. Numbers are the integers plus NaN; objects and arrays
    carry their named own properties in a finite map. *)
Inductive value :=
  | VUndefined
  | VNull
  | VBool (b : bool)
  | VNum (n : Z)
  | VNaN
  | VStr (s : string)
  | VArr (elems : list value) (props : gmap string value)
  | VObj (c : cls) (props : gmap string value).

(** Exceptions the constructor can raise. *)
Inductive exn :=
  | Error (msg : string)
  | TypeError.

(** [if (v)], [!v], [v || w]. *)
Definition truthy (v : value) : bool :=
  match v with
  | VUndefined | VNull | VNaN => false
  | VBool b => b
  | VNum n => negb (n =? 0)%Z
  | VStr s => negb (String.eqb s "")
  | VArr _ _ | VObj _ _ => true
  end.

Definition or_else (v w : value) : value := if truthy v then v else w.

(** [typeof v === "number"]. *)
Definition is_number (v : value) : bool :=
  match v with VNum _ | VNaN => true | _ => false end.

(** [_.isArray(v)]. *)
Definition isArray (v : value) : bool :=
  match v with VArr _ _ => true | _ => false end.

(** [Match.test(v, Object)]: plain objects only. *)
Definition Match_test_Object (v : value) : bool :=
  match v with VObj Plain _ => true | _ => false end.

(** Property read [v.k] for the property names the constructor reads
    (never an array index). Reading a property of undefined or null
    throws; a primitive has none of these properties. The store name of an
    adapter is its identity and is read from its class. *)
Definition get (v : value) (k : string) : exn + value :=
  match v with
  | VUndefined | VNull => inl TypeError
  | VObj (Adapter n) m =>
      inr (if String.eqb k "name" then VStr n else default VUndefined (m !! k))
  | VObj Plain m => inr (default VUndefined (m !! k))
  | VArr l m =>
      inr (if String.eqb k "length" then VNum (Z.of_nat (length l))
           else default VUndefined (m !! k))
  | VStr s =>
      inr (if String.eqb k "length" then VNum (Z.of_nat (String.length s))
           else VUndefined)
  | VBool _ | VNum _ | VNaN => inr VUndefined
  end.

(** Property write [v.k = w] outside strict mode: stored on objects and
    arrays, silently dropped on primitives, an exception on undefined and
    null. *)
Definition set (v : value) (k : string) (w : value) : exn + value :=
  match v with
  | VUndefined | VNull => inl TypeError
  | VObj c m => inr (VObj c (<[k := w]> m))
  | VArr l m => inr (VArr l (<[k := w]> m))
  | VBool _ | VNum _ | VNaN | VStr _ => inr v
  end.

(** Lower case on strings of ASCII characters: the letters A-Z go to a-z
    and nothing else changes. *)
Definition lower_ascii (c : ascii) : ascii :=
  let n := nat_of_ascii c in
  if (65 <=? n)%nat && (n <=? 90)%nat then ascii_of_nat (n + 32) else c.

Fixpoint ascii_toLowerCase (s : string) : string :=
  match s with
  | EmptyString => EmptyString
  | String c r => String (lower_ascii c) (ascii_toLowerCase r)
  end.

Fixpoint is_ascii (s : string) : bool :=
  match s with
  | EmptyString => true
  | String c r => (nat_of_ascii c <? 128)%nat && is_ascii r
  end.

(** [String.prototype.toLowerCase] belongs to the JavaScript engine and
    follows the Unicode case tables, which are not part of the source. It
    is taken as given, with what is used of it: lowering twice is lowering
    once, and on a string of ASCII characters it is [ascii_toLowerCase]. *)
Class Host := {
  toLowerCase : string -> string;
  toLowerCase_twice : forall s, toLowerCase (toLowerCase s) = toLowerCase s;
  toLowerCase_on_ascii :
    forall s, is_ascii s = true -> toLowerCase s = ascii_toLowerCase s
}.

(** An engine that knows the ASCII letters only, for sample runs. *)
Definition ascii_host : Host.
Proof.
  refine {| toLowerCase := ascii_toLowerCase |}.
  - intros s. induction s as [|c s IH]; simpl; [reflexivity|].
    rewrite IH. f_equal. destruct c as [[] [] [] [] [] [] [] []]; reflexivity.
  - reflexivity.
Defined.

(** The strings of [s] as one-character values, the way [for .. in] and
    [_.each] see a string. *)
Fixpoint chars (s : string) : list value :=
  match s with
  | EmptyString => []
  | String c r => VStr (String c EmptyString) :: chars r
  end.

(** The index properties "0", "1", ... of a list of elements. *)
Definition index_props (l : list value) : gmap string value :=
  list_to_map (imap (fun i v => (pretty i, v)) l).

(** The properties [for (var prop in v)] enumerates. *)
Definition for_in (v : value) : gmap string value :=
  match v with
  | VObj Plain m => m
  | VObj (Adapter n) m => <["name" := VStr n]> m
  | VArr l m => m ∪ index_props l
  | VStr s => index_props (chars s)
  | _ => ∅
  end.

(** [_.extend(obj, source)]: every enumerable property of a truthy
    [source] is assigned onto [obj], also when its value is undefined. *)
Definition extend (obj : gmap string value) (source : value) : gmap string value :=
  if truthy source then for_in source ∪ obj else obj.

(** [_.isEmpty(v)]: undefined and null are empty, arrays and strings are
    empty when their length is 0, anything else when it has no own
    property. *)
Definition isEmpty (v : value) : bool :=
  match v with
  | VUndefined | VNull => true
  | VArr l _ => bool_decide (l = [])
  | VStr s => String.eqb s ""
  | VObj c m => bool_decide (for_in (VObj c m) = ∅)
  | VBool _ | VNum _ | VNaN => true
  end.

(** The items [_.each(v, f)] visits: the elements of an array or string,
    the indexed items of an object with a numeric length, otherwise the
    values of an object's own properties; nothing for undefined, null and
    the other primitives that pass [isEmpty]. The properties of an object
    come in the order of their names here, not in the order in which they
    were added. *)
Definition each_items (v : value) : list value :=
  match v with
  | VArr l _ => l
  | VStr s => chars s
  | VObj c m =>
      match m !! "length" with
      | Some (VNum n) =>
          map (fun i : nat => default VUndefined (m !! pretty i)) (seq 0 (Z.to_nat n))
      | _ => map snd (map_to_list (for_in (VObj c m)))
      end
  | _ => []
  end.

End JS.

(* ===================================================================== *)
(** ** The constructor FS.Collection *)
(* ===================================================================== *)

Module Ctor.
Import JS.

(** Sequencing of steps that may throw. *)
Definition bind {A B} (x : exn + A) (f : A -> exn + B) : exn + B :=
  match x with
  | inl e => inl e
  | inr a => f a
  end.

Notation "'let!' x ':=' c 'in' k" := (bind c (fun x => k))
  (at level 10, x name, c at level 100, k at level 200).

(** Lines 20-24: the defaults of [self.options]. *)
Definition default_options : gmap string value :=
  {[ "filter" := VNull;
     "stores" := VArr [] ∅;
     "chunkSize" := VNum (128 * 1024) ]}.

(** [self.options.k] on the options object. *)
Definition opt (o : gmap string value) (k : string) : value :=
  default VUndefined (o !! k).

(** Line 38. *)
Definition no_store_error : exn :=
  Error "You must specify at least one store. Please consult the documentation.".

Section WithHost.
Context {host : Host}.

(** Lines 87-89 and 98-100: every element of the array is replaced by
    its [toLowerCase()]; an element without that method throws. Among the
    values of [value] the strings have that method and nothing else has:
    undefined, null, booleans and numbers have none, and no property of an
    object or array here is a function. *)
Fixpoint lowercase_all (l : list value) : exn + list value :=
  match l with
  | [] => inr []
  | VStr s :: r =>
      let! r' := lowercase_all r in
      inr (VStr (toLowerCase s) :: r')
  | _ :: _ => inl TypeError
  end.

(** Lines 74-79, for [k] one of "allow" and "deny". *)
Definition normalize_side (f : value) (k : string) : exn + value :=
  let! a := get f k in
  if negb (truthy a) || negb (Match_test_Object a)
  then set f k (VObj Plain ∅)
  else inr f.

(** Lines 80-82. *)
Definition normalize_maxSize (f : value) : exn + value :=
  let! m := get f "maxSize" in
  if negb (truthy m) || negb (is_number m)
  then set f "maxSize" VNull
  else inr f.

(** Lines 83-90 and 94-101, for [k] one of "allow" and "deny". The
    assignments go to the object held in [f.k], which [f] then holds in
    its new state. *)
Definition normalize_extensions (f : value) (k : string) : exn + value :=
  let! a := get f k in
  let! e := get a "extensions" in
  let! a' :=
    (if negb (truthy e) || negb (isArray e)
     then set a "extensions" (VArr [] ∅)
     else match e with
          | VArr l m =>
              let! l' := lowercase_all l in
              set a "extensions" (VArr l' m)
          | _ => inr a
          end) in
  set f k a'.

(** Lines 91-93 and 102-104. *)
Definition normalize_contentTypes (f : value) (k : string) : exn + value :=
  let! a := get f k in
  let! c := get a "contentTypes" in
  let! a' :=
    (if negb (truthy c) || negb (isArray c)
     then set a "contentTypes" (VArr [] ∅)
     else inr a) in
  set f k a'.

(** Lines 73-105: the value of [self.options.filter] after the
    normalisation. *)
Definition normalize_filter (f : value) : exn + value :=
  if truthy f then
    let! f := normalize_side f "allow" in
    let! f := normalize_side f "deny" in
    let! f := normalize_maxSize f in
    let! f := normalize_extensions f "allow" in
    let! f := normalize_contentTypes f "allow" in
    let! f := normalize_extensions f "deny" in
    normalize_contentTypes f "deny"
  else inr f.

(** The run-time environment the constructor consults: [Meteor.isServer],
    [Package.join], [Package.insecure], [FS.FileWorker]. *)
Record Env := mkEnv {
  isServer : bool;
  Package_join : bool;
  Package_insecure : bool;
  FileWorker : bool
}.

(** Which constructor made [self.files] (lines 53-58). *)
Inductive files_kind := JoinCollection | MeteorCollection.

(** The object under construction, [self]. *)
Record Collection := mkCollection {
  options : gmap string value;   (* self.options *)
  name : string;                 (* self.name *)
  files : string;                (* the name self.files was created under *)
  kind : files_kind;
  allow_all : bool               (* the allow rules of lines 125-140 are installed *)
}.

(** What construction acts on outside [self]: the registry
    [FS._collections], the collections created in the document database,
    the (store name, collection name) pairs for which sync callbacks were
    handed to a store, and the collections the file worker observes. *)
Record World := mkWorld {
  _collections : gmap string Collection;
  created : list string;
  synced : list (string * string);
  observed : list string
}.

(** Lines 157-220: [store.defineSyncCallbacks] exists on storage adapters
    only; the callbacks close over the store's name and [self]. *)
Fixpoint define_all (cname : string) (stores : list value)
    (acc : list (string * string)) : (exn + unit) * list (string * string) :=
  match stores with
  | [] => (inr tt, acc)
  | VObj (Adapter n) _ :: r => define_all cname r (acc ++ [(n, cname)])
  | _ :: _ => (inl TypeError, acc)
  end.

(** Lines 20-30: [self.options] once the supplied options have been
    laid over the defaults. *)
Definition merged (options : value) : gmap string value :=
  extend default_options (or_else options (VObj Plain ∅)).

(** [new FS.Collection(name, options)]: the exception or the constructed
    object, and the world afterwards. *)
Definition construct (env : Env) (name : string) (options : value) (w : World)
    : (exn + Collection) * World :=
  (* lines 20-30 *)
  let o := merged options in
  (* lines 37-39 *)
  if isEmpty (opt o "stores") then (inl no_store_error, w) else
  (* lines 52-58 *)
  let collectionName := name ++ ".files" in
  let k := if Package_join env then JoinCollection else MeteorCollection in
  let w := mkWorld (_collections w) (created w ++ [collectionName]) (synced w) (observed w) in
  (* lines 73-105 *)
  match normalize_filter (opt o "filter") with
  | inl e => (inl e, w)
  | inr f =>
      let o := <["filter" := f]> o in
      (* lines 109-141 *)
      let self := mkCollection o name collectionName k (Package_insecure env) in
      (* line 153 *)
      let w := mkWorld (<[name := self]> (_collections w)) (created w) (synced w) (observed w) in
      (* lines 155-225 *)
      if isServer env then
        match define_all name (each_items (opt o "stores")) (synced w) with
        | (inl e, sy) =>
            (inl e, mkWorld (_collections w) (created w) sy (observed w))
        | (inr _, sy) =>
            (inr self,
             mkWorld (_collections w) (created w) sy
               (if FileWorker env then observed w ++ [name] else observed w))
        end
      else (inr self, w)
  end.

(** *** Reading an options object and a filter *)

(** The value of property [k] as the caller supplied it in [options], if
    it supplied one. *)
Definition supplied (options : value) (k : string) : option value :=
  for_in (or_else options (VObj Plain ∅)) !! k.

(** No list of stores, or an empty one. *)
Definition no_stores (options : value) : Prop :=
  supplied options "stores" = None \/
  supplied options "stores" = Some VUndefined \/
  supplied options "stores" = Some VNull \/
  exists m, supplied options "stores" = Some (VArr [] m).

(** Objects and arrays hold named properties. *)
Definition is_object (v : value) : bool :=
  match v with VObj _ _ | VArr _ _ => true | _ => false end.

Definition props (v : value) : gmap string value :=
  match v with VObj _ m | VArr _ m => m | _ => ∅ end.

Definition with_props (v : value) (m : gmap string value) : value :=
  match v with
  | VObj c _ => VObj c m
  | VArr l _ => VArr l m
  | _ => v
  end.

(** The properties of a sub-field that is a plain object; none for any
    other value and for a missing sub-field. *)
Definition plain_props (o : option value) : gmap string value :=
  match o with Some (VObj Plain m) => m | _ => ∅ end.

(** [f.allow] or [f.deny] read that way, and the elements of its
    [extensions] when that is an array. *)
Definition side (f : value) (k : string) : gmap string value :=
  plain_props (props f !! k).

Definition exts (f : value) (k : string) : list value :=
  match side f k !! "extensions" with Some (VArr l _) => l | _ => [] end.

Definition is_string (v : value) : bool :=
  match v with VStr _ => true | _ => false end.

Definition lower_value (v : value) : value :=
  match v with VStr s => VStr (toLowerCase s) | _ => v end.

(** A string value that [toLowerCase] leaves as it is. *)
Definition is_lowercase (v : value) : Prop :=
  exists s, v = VStr s /\ toLowerCase s = s.

(** What lines 80-82 keep of [maxSize]. *)
Definition kept_maxSize (o : option value) : value :=
  match o with
  | Some (VNum n) => if (n =? 0)%Z then VNull else VNum n
  | _ => VNull
  end.

(** What lines 83-104 keep of an [extensions] or [contentTypes]
    sub-field: an array, else the empty list. *)
Definition kept_array (o : option value) : value :=
  match o with
  | Some (VArr l m) => VArr l m
  | _ => VArr [] ∅
  end.

(** An array with [toLowerCase] applied to each of its strings. *)
Definition lower_array (v : value) : value :=
  match v with
  | VArr l m => VArr (map lower_value l) m
  | _ => v
  end.

(** The only exception a step of the normalisation raises. *)
Definition throws_TypeError_only {A} (x : exn + A) : Prop :=
  forall e, x = inl e -> e = TypeError.

(** The normalisation as a function of the properties of the filter
    object. *)
Definition lowered (o : option value) : exn + value :=
  match o with
  | Some (VArr l m) => let! l' := lowercase_all l in inr (VArr l' m)
  | _ => inr (VArr [] ∅)
  end.

Definition norm_side (a : gmap string value) : exn + gmap string value :=
  let! e := lowered (a !! "extensions") in
  inr (<["contentTypes" := kept_array (a !! "contentTypes")]>
         (<["extensions" := e]> a)).

Definition norm_props (m : gmap string value) : exn + gmap string value :=
  let! a := norm_side (plain_props (m !! "allow")) in
  let! d := norm_side (plain_props (m !! "deny")) in
  inr (<["deny" := VObj Plain d]>
         (<["allow" := VObj Plain a]>
            (<["maxSize" := kept_maxSize (m !! "maxSize")]> m))).

(** The same filter with every string of [allow.extensions] and
    [deny.extensions] in lower case: two filters that differ only in the
    letter case of those strings have the same image. *)
Definition fold_side (v : value) : value :=
  match v with
  | VObj Plain a =>
      match a !! "extensions" with
      | Some (VArr l m) => VObj Plain (<["extensions" := VArr (map lower_value l) m]> a)
      | _ => v
      end
  | _ => v
  end.

Definition fold_case (f : value) : value :=
  with_props f (alter fold_side "deny" (alter fold_side "allow" (props f))).

End WithHost.

End Ctor.

(* ===================================================================== *)
(** ** File records, the metadata store and the sync callbacks *)
(* ===================================================================== *)

(** The [info] object a store reports with a sync event. *)
Module Info.
Record t := mk {
  name : string;
  type : string;
  size : Z;
  utime : Z
}.
End Info.

(** One entry of [copies]: the object literal of lines 168-174 and
    203-209. *)
Module Copy.
Record t := mk {
  _id : string;
  name : string;
  type : string;
  size : Z;
  utime : Z
}.
End Copy.

(** The [fileInfo] object literal of lines 161-167 and 196-202. *)
Module FileInfo.
Record t := mk {
  name : string;
  type : string;
  size : Z;
  utime : Z;
  copies : gmap string Copy.t
}.
End FileInfo.

(** An FS.File: the file record and the content loaded into it. Its [_id]
    is the key it is stored under in the collection; a document read back
    goes through the transform of lines 42-48 and is an FS.File again. *)
Module File.
Record t := mk {
  name : string;
  type : string;
  size : Z;
  utime : Z;
  copies : gmap string Copy.t;
  data : option (list Byte.byte * string)
}.
End File.

(** A [$set] modifier over the fields of a file record; [None] leaves the
    field alone. *)
Module Modifier.
Record t := mk {
  name : option string;
  type : option string;
  size : option Z;
  utime : option Z;
  copies : option (gmap string Copy.t)
}.
End Modifier.

Module Files.

(** The documents of [self.files], by [_id]. *)
Abbreviation Docs := (gmap string File.t).

(** Modelled from the spec: [new FS.File(ref)], missing from src/. The new
    file carries the metadata of [ref] and has no content yet. *)
Definition FS_File (ref : FileInfo.t) : File.t :=
  File.mk (FileInfo.name ref) (FileInfo.type ref) (FileInfo.size ref)
          (FileInfo.utime ref) (FileInfo.copies ref) None.

(** Modelled from the spec: [fsFile.setDataFromBuffer(buffer, type)],
    missing from src/, which loads the raw bytes into the file's
    materialized content. *)
Definition setDataFromBuffer (buffer : list Byte.byte) (type : string)
    (f : File.t) : File.t :=
  File.mk (File.name f) (File.type f) (File.size f) (File.utime f)
          (File.copies f) (Some (buffer, type)).

(** Modelled from the spec: the metadata store applying a [$set]
    modifier to one document; missing from src/. *)
Definition apply_set (m : Modifier.t) (f : File.t) : File.t :=
  File.mk (default (File.name f) (Modifier.name m))
          (default (File.type f) (Modifier.type m))
          (default (File.size f) (Modifier.size m))
          (default (File.utime f) (Modifier.utime m))
          (default (File.copies f) (Modifier.copies m))
          (File.data f).

(** Modelled from the spec: [self.insert(fsFile)] called from trusted
    server code, missing from src/. The file is stored under an id the
    metadata store assigns, one that no stored document has. *)
Definition insert (f : File.t) (docs : Docs) : string * Docs :=
  let id := fresh (dom docs) in (id, <[id := f]> docs).

(** Modelled from the spec: [self.find(selector)], missing from src/:
    the stored documents the selector matches, each with its [_id]. *)
Definition find (sel : File.t -> bool) (docs : Docs) : list (string * File.t) :=
  filter (fun d => sel d.2 = true) (map_to_list docs).

(** Modelled from the spec: [self.findOne(selector)], missing from src/:
    one document the selector matches, or undefined when none does. Which
    one it is when several match is the metadata store's choice; here it
    is the first in the order of the ids. *)
Definition findOne (sel : File.t -> bool) (docs : Docs) : option (string * File.t) :=
  head (find sel docs).

(** Modelled from the spec: [fsFile.update(modifier)] called from trusted
    server code, missing from src/: the modifier is applied to the
    document stored under the file's [_id]. *)
Definition update (id : string) (m : Modifier.t) (docs : Docs) : Docs :=
  match docs !! id with
  | Some f => <[id := apply_set m f]> docs
  | None => docs
  end.

(** Modelled from the spec: [self.remove(selector)], missing from src/:
    every document the selector matches is deleted. *)
Definition remove (sel : File.t -> bool) (docs : Docs) : Docs :=
  filter (fun d => sel d.2 = false) docs.

(** A selector key is a dotted path: the field names between its dots. *)
Fixpoint split_dots (s : string) : list string :=
  match s with
  | EmptyString => [EmptyString]
  | String c r =>
      if Ascii.eqb c "."%char then EmptyString :: split_dots r
      else match split_dots r with
           | p :: ps => String c p :: ps
           | [] => [String c EmptyString]
           end
  end.

Fixpoint has_dot (s : string) : bool :=
  match s with
  | EmptyString => false
  | String c r => Ascii.eqb c "."%char || has_dot r
  end.

(** What a path reaches inside a stored file record: the record, its
    [copies] object, one copy descriptor, or a string or number held in
    one of their fields. *)
Inductive node :=
  | NFile (f : File.t)
  | NCopies (m : gmap string Copy.t)
  | NCopy (c : Copy.t)
  | NStr (s : string)
  | NNum (n : Z).

(** One step of a path: the field [key] of a node. Strings and numbers
    have no fields. *)
Definition field (n : node) (key : string) : option node :=
  match n with
  | NFile f =>
      if String.eqb key "name" then Some (NStr (File.name f))
      else if String.eqb key "type" then Some (NStr (File.type f))
      else if String.eqb key "size" then Some (NNum (File.size f))
      else if String.eqb key "utime" then Some (NNum (File.utime f))
      else if String.eqb key "copies" then Some (NCopies (File.copies f))
      else None
  | NCopies m => NCopy <$> m !! key
  | NCopy c =>
      if String.eqb key "_id" then Some (NStr (Copy._id c))
      else if String.eqb key "name" then Some (NStr (Copy.name c))
      else if String.eqb key "type" then Some (NStr (Copy.type c))
      else if String.eqb key "size" then Some (NNum (Copy.size c))
      else if String.eqb key "utime" then Some (NNum (Copy.utime c))
      else None
  | NStr _ | NNum _ => None
  end.

Fixpoint lookup_path (path : list string) (n : node) : option node :=
  match path with
  | [] => Some n
  | key :: rest =>
      match field n key with
      | Some n' => lookup_path rest n'
      | None => None
      end
  end.

(** The selector of lines 185-186 and 215-216: the key is the string
    ['copies.' + store.name + '._id'], which the metadata store reads as a
    dotted path, and the record matches when the path reaches the string
    [storeId]. A dot in the store's name is a dot of the path. *)
Definition selector (store storeId : string) (f : File.t) : bool :=
  match lookup_path (split_dots ("copies." ++ store ++ "._id")) (NFile f) with
  | Some (NStr s) => bool_decide (s = storeId)
  | _ => false
  end.

(** Lines 161-174 and 196-209, the same in both handlers: [fileInfo]
    with its top-level metadata from [info] and empty [copies], then the
    assignment [fileInfo.copies[store.name] = {...}]. *)
Definition copy_of (storeId : string) (info : Info.t) : Copy.t :=
  Copy.mk storeId (Info.name info) (Info.type info) (Info.size info) (Info.utime info).

Definition fileInfo (store storeId : string) (info : Info.t) : FileInfo.t :=
  FileInfo.mk (Info.name info) (Info.type info) (Info.size info) (Info.utime info)
              (<[store := copy_of storeId info]> ∅).

(** The modifier [{$set: fileInfo}] of line 210. *)
Definition set_all (fi : FileInfo.t) : Modifier.t :=
  Modifier.mk (Some (FileInfo.name fi)) (Some (FileInfo.type fi))
              (Some (FileInfo.size fi)) (Some (FileInfo.utime fi))
              (Some (FileInfo.copies fi)).

(** The three callbacks handed to [store.defineSyncCallbacks]. *)
Record SyncCallbacks := mkCallbacks {
  on_insert : string -> Info.t -> list Byte.byte -> Docs -> Docs;
  on_update : string -> Info.t -> Docs -> Docs;
  on_remove : string -> Docs -> Docs
}.

(** Lines 159-182. *)
Definition sync_insert (store : string) (storeId : string) (info : Info.t)
    (buffer : list Byte.byte) (docs : Docs) : Docs :=
  let fsFile := FS_File (fileInfo store storeId info) in
  let fsFile := setDataFromBuffer buffer (Info.type info) fsFile in
  (insert fsFile docs).2.

(** Lines 183-211. *)
Definition sync_update (store : string) (storeId : string) (info : Info.t)
    (docs : Docs) : Docs :=
  match findOne (selector store storeId) docs with
  | None => docs
  | Some (id, fsFile) => update id (set_all (fileInfo store storeId info)) docs
  end.

(** Lines 212-218. *)
Definition sync_remove (store : string) (storeId : string) (docs : Docs) : Docs :=
  remove (selector store storeId) docs.

(** Lines 157-220: the callbacks defined for one store. *)
Definition defineSyncCallbacks (store : string) : SyncCallbacks :=
  mkCallbacks (sync_insert store) (sync_update store) (sync_remove store).

(** *** Writes from untrusted code *)

(** The allow and deny rules of a collection, per operation. *)
Record Rules := mkRules {
  insert_allow : list (option string -> File.t -> bool);
  insert_deny : list (option string -> File.t -> bool);
  update_allow : list (option string -> File.t -> list string -> Modifier.t -> bool);
  update_deny : list (option string -> File.t -> list string -> Modifier.t -> bool)
}.

(** The top-level fields a modifier touches. *)
Definition touched {A} (field : string) (o : option A) : list string :=
  match o with
  | Some _ => [field]
  | None => []
  end.

Definition fields_of (m : Modifier.t) : list string :=
  touched "name" (Modifier.name m) ++ touched "type" (Modifier.type m) ++
  touched "size" (Modifier.size m) ++ touched "utime" (Modifier.utime m) ++
  touched "copies" (Modifier.copies m).

(** The metadata store's contract for an insert from untrusted code: it
    is refused when a deny rule returns true or no allow rule does. The
    rules see the document about to be inserted. *)
Definition untrusted_insert (r : Rules) (userId : option string) (f : File.t)
    (docs : Docs) : option Docs :=
  if existsb (fun deny => deny userId f) (insert_deny r) then None
  else if negb (existsb (fun allow => allow userId f) (insert_allow r)) then None
  else Some (insert f docs).2.

(** The metadata store's contract for an update from untrusted code, by
    [_id]: the rules are called with the document as it is stored, before
    the modifier is applied, the touched fields and the modifier. The
    [fetch: []] of line 119 names no field the rules need in particular;
    the document is handed over whole. *)
Definition untrusted_update (r : Rules) (userId : option string) (id : string)
    (m : Modifier.t) (docs : Docs) : option Docs :=
  match docs !! id with
  | None => Some docs
  | Some f =>
      if existsb (fun deny => deny userId f (fields_of m) m) (update_deny r) then None
      else if negb (existsb (fun allow => allow userId f (fields_of m) m) (update_allow r))
      then None
      else Some (<[id := apply_set m f]> docs)
  end.

Section Deny.

(** [fsFile.fileIsAllowed()], missing from src/: the Filter Engine under
    the collection's rule set. *)
Variable fileIsAllowed : File.t -> bool.

(** Lines 110-112. *)
Definition deny_insert (userId : option string) (fsFile : File.t) : bool :=
  negb (fileIsAllowed fsFile).

(** Lines 113-118. *)
Definition deny_update (userId : option string) (fsFile : File.t)
    (fields : list string) (modifier : Modifier.t) : bool :=
  negb (fileIsAllowed fsFile).

(** Lines 109-141: the rules of the collection once the constructor has
    run, [app] being the rules the application registers itself. With the
    insecure package the constructor adds allow rules that return true. *)
Definition installed (insecure : bool) (app : Rules) : Rules :=
  mkRules
    ((if insecure then [fun _ _ => true] else []) ++ insert_allow app)
    (deny_insert :: insert_deny app)
    ((if insecure then [fun _ _ _ _ => true] else []) ++ update_allow app)
    (deny_update :: update_deny app).

(** Every stored record passes the filter. *)
Definition all_allowed (docs : Docs) : Prop :=
  map_Forall (fun _ f => fileIsAllowed f = true) docs.

End Deny.

(** *** The Filter Engine *)

(** The Filter Rule Set of a collection. *)
Record RuleSet := mkRuleSet {
  allow_extensions : list string;
  allow_contentTypes : list string;
  deny_extensions : list string;
  deny_contentTypes : list string;
  maxSize : option Z
}.

(** The text after the last dot of a name, if the name has a dot. *)
Fixpoint after_last_dot (s : string) : option string :=
  match s with
  | EmptyString => None
  | String c r =>
      match after_last_dot r with
      | Some e => Some e
      | None => if Ascii.eqb c "."%char then Some r else None
      end
  end.

(** The lowercase file extension of a name, for names in ASCII. *)
Definition getExtension (name : string) : string :=
  JS.ascii_toLowerCase (default "" (after_last_dot name)).

Section FilterEngine.

(** Whether a content type matches a pattern of a rule set. *)
Variable matches : string -> string -> bool.

(** Modelled from the spec: the Filter Engine [isAllowed(fileMeta,
    ruleSet)], missing from src/, in the seven steps the spec gives. *)
Definition isAllowed (ruleSet : option RuleSet) (f : File.t) : bool :=
  match ruleSet with
  | None => true
  | Some rs =>
      let ext := getExtension (File.name f) in
      let ct := File.type f in
      if existsb (String.eqb ext) (deny_extensions rs)
         || existsb (fun p => matches p ct) (deny_contentTypes rs) then false
      else if match maxSize rs with Some n => (n <? File.size f)%Z | None => false end
      then false
      else if negb (bool_decide (allow_extensions rs = []))
              && negb (existsb (String.eqb ext) (allow_extensions rs)) then false
      else if negb (bool_decide (allow_contentTypes rs = []))
              && negb (existsb (fun p => matches p ct) (allow_contentTypes rs)) then false
      else true
  end.

End FilterEngine.

End Files.

(* ===================================================================== *)
(** ** Sample data *)
(* ===================================================================== *)

Module Sample.
Import JS Ctor Files.

Definition png : Info.t := Info.mk "a.png" "image/png" 500000 100.
Definition gif : Info.t := Info.mk "b.gif" "image/gif" 700 200.

(** One record, reported by the store "s3" under the id "k1". *)
Definition one_doc : Docs := sync_insert "s3" "k1" png [] ∅.

(** The same store reporting a second file, and "local" a third. *)
Definition three_docs : Docs :=
  sync_insert "local" "k1" gif [] (sync_insert "s3" "k2" gif [] one_doc).

(** The second of them, as stored. *)
Definition gif_at_s3 : File.t :=
  File.mk "b.gif" "image/gif" 700 200 {[ "s3" := copy_of "k2" gif ]} (Some ([], "image/gif")).

(** The rule set and the first candidate of the spec's filter scenario,
    and an update that raises the size past the ceiling. *)
Definition scenario : RuleSet := mkRuleSet ["png"; "jpg"] [] [] [] (Some 1000000%Z).
Definition candidate : File.t := File.mk "a.png" "image/png" 500000 0 ∅ None.
Definition grow : Modifier.t := Modifier.mk None None (Some 2000000%Z) None None.
Definition no_rules : Rules := mkRules [] [] [] [].

(** A server with the insecure package, an empty world, and options with
    one store. *)
Definition server : Env := mkEnv true false true true.
Definition world0 : World := mkWorld ∅ [] [] [].
Definition s3 : value := VObj (Adapter "s3") ∅.
Definition obj (l : list (string * value)) : value := VObj Plain (list_to_map l).
Definition arr (l : list value) : value := VArr l ∅.
Definition one_store : value := obj [("stores", arr [s3])].

Definition small_chunks : value := obj [("stores", arr [s3]); ("chunkSize", VNum 1024)].

(** A filter whose allowed extensions hold a number, options with that
    filter, and two filters that differ in the letter case of their
    extensions only. *)
Definition number_ext : value := obj [("allow", obj [("extensions", arr [VNum 5])])].
Definition with_number_ext : value := obj [("stores", arr [s3]); ("filter", number_ext)].
Definition upper : value :=
  obj [("allow", obj [("extensions", arr [VStr "PNG"; VStr "Jpg"])]);
       ("deny", obj [("extensions", arr [VStr "EXE"])]);
       ("maxSize", VNum 1000000)].
Definition mixed : value :=
  obj [("allow", obj [("extensions", arr [VStr "png"; VStr "jPG"])]);
       ("deny", obj [("extensions", arr [VStr "Exe"])]);
       ("maxSize", VNum 1000000)].

End Sample.

(* ===================================================================== *)
(** ** The shape of a normalised filter, and further sample data *)
(* ===================================================================== *)

Module Normal.
Import JS Ctor.

(** The names of the adapters of a list of stores, in its order. *)
Definition adapter_name (v : value) : option string :=
  match v with VObj (Adapter n) _ => Some n | _ => None end.

Definition store_names (stores : list value) : list string :=
  omap adapter_name stores.

(** A value whose [toLowerCase] is undefined whatever the program has
    added to its objects: undefined, null, a boolean or a number. *)
Definition lacks_toLowerCase (v : value) : bool :=
  match v with
  | VUndefined | VNull | VBool _ | VNum _ | VNaN => true
  | _ => false
  end.

Section WithHost.
Context {host : Host}.

(** [allow] or [deny] after lines 74-104: a plain object whose
    [extensions] is an array of lower-case strings and whose
    [contentTypes] is an array. *)
Definition normalized_side (o : option value) : Prop :=
  exists a l em c cm,
    o = Some (VObj Plain a) /\
    a !! "extensions" = Some (VArr l em) /\ Forall is_lowercase l /\
    a !! "contentTypes" = Some (VArr c cm).

(** [maxSize] after lines 80-82: null, or a number other than 0. *)
Definition normalized_maxSize (o : option value) : Prop :=
  o = Some VNull \/ exists n, n ≠ 0%Z /\ o = Some (VNum n).

(** A filter as later code may assume it. *)
Definition normalized (f : value) : Prop :=
  is_object f = true /\
  normalized_side (props f !! "allow") /\
  normalized_side (props f !! "deny") /\
  normalized_maxSize (props f !! "maxSize").

(** Storage adapters with the given names, and what is one. *)
Definition adapters (names : list string) : list value :=
  map (fun n => VObj (Adapter n) ∅) names.

Definition is_adapter (v : value) : bool :=
  match v with VObj (Adapter _) _ => true | _ => false end.

(** The world right after lines 52-58 and line 153 have run for [self]. *)
Definition registered (name : string) (self : Collection) (w : World)
    (synced' : list (string * string)) (observed' : list string) : World :=
  mkWorld (<[name := self]> (_collections w))
          (created w ++ [name ++ ".files"]) synced' observed'.

End WithHost.

End Normal.

Module Cases.
Import JS Ctor Files Normal.

Definition client : Env := mkEnv false false false false.
Definition s3_in_region : value :=
  VObj (Adapter "s3") {[ "region" := VStr "eu-west-1" ]}.
Definition local : value := VObj (Adapter "local") ∅.
Definition with_region : value :=
  Sample.obj [("stores", Sample.arr [s3_in_region; local])].
Definition region_then_name : value :=
  Sample.obj [("stores", Sample.arr [s3_in_region; VStr "local"; Sample.s3])].
Definition store_by_name : value :=
  Sample.obj [("stores", Sample.arr (adapters ["s3"] ++ [VStr "local"]))].
Definition uppercase_options : value :=
  Sample.obj [("stores", Sample.arr [Sample.s3]); ("filter", Sample.upper)].

(** A record that the scenario's rule set rejects, as the sync callback of
    a store would have stored it. *)
Definition big : Info.t := Info.mk "big.png" "image/png" 2000000 300.
Definition with_big : Docs := sync_insert "s3" "k7" big [] ∅.
Definition shrink : Modifier.t := Modifier.mk None None (Some 10%Z) None None.
Definition scenario_filter : File.t -> bool :=
  isAllowed String.eqb (Some Sample.scenario).

End Cases.

(* ===================================================================== *)
(** ** The constructor *)
(* ===================================================================== *)

Section CtorFacts.
Import JS Ctor.
Context {host : Host}.

Implicit Types (f v : value) (m a : gmap string value) (k : string).

Lemma props_with_props f m : is_object f = true -> props (with_props f m) = m.
Proof. by destruct f. Qed.

Lemma is_object_with_props f m : is_object (with_props f m) = is_object f.
Proof. by destruct f. Qed.

Lemma with_props_twice f m m' : with_props (with_props f m) m' = with_props f m'.
Proof. by destruct f. Qed.

Lemma with_props_same f : with_props f (props f) = f.
Proof. by destruct f. Qed.

Lemma get_object f k :
  is_object f = true -> k ≠ "name" -> k ≠ "length" ->
  get f k = inr (default VUndefined (props f !! k)).
Proof.
  intros Hf Hname%String.eqb_neq Hlen%String.eqb_neq.
  destruct f as [| | | | | |l m|[|n] m]; try done; simpl; by rewrite ?Hname, ?Hlen.
Qed.

Lemma set_object f k w :
  is_object f = true -> set f k w = inr (with_props f (<[k := w]> (props f))).
Proof. by destruct f. Qed.

(** Writing back what is already there changes nothing. *)
Lemma with_props_insert_id f k w :
  props f !! k = Some w -> with_props f (<[k := w]> (props f)) = f.
Proof. intros H. rewrite insert_id by done. apply with_props_same. Qed.

Lemma normalize_side_object f k :
  is_object f = true -> k ≠ "name" -> k ≠ "length" ->
  normalize_side f k = inr (with_props f (<[k := VObj Plain (side f k)]> (props f))).
Proof.
  intros Hf Hname Hlen. unfold normalize_side, side.
  rewrite get_object by done. simpl.
  destruct (props f !! k) as [[| |[]|n| |s|l m|[|n] m]|] eqn:Hk; simpl;
    rewrite ?set_object by done; try done.
  - destruct (n =? 0)%Z; simpl; by rewrite ?set_object.
  - destruct (String.eqb s ""); simpl; by rewrite ?set_object.
  - by rewrite with_props_insert_id.
Qed.

Lemma normalize_maxSize_object f :
  is_object f = true ->
  normalize_maxSize f =
    inr (with_props f (<["maxSize" := kept_maxSize (props f !! "maxSize")]> (props f))).
Proof.
  intros Hf. unfold normalize_maxSize. rewrite get_object by done. simpl.
  destruct (props f !! "maxSize") as [[| |[]|n| |s|l m|[|n] m]|] eqn:Hk; simpl;
    rewrite ?set_object by done; try done.
  - destruct (n =? 0)%Z eqn:Hn; simpl; rewrite ?set_object by done; [done|].
    by rewrite with_props_insert_id.
  - destruct (String.eqb s ""); simpl; by rewrite ?set_object.
Qed.

Lemma normalize_extensions_object f k a :
  is_object f = true -> k ≠ "name" -> k ≠ "length" ->
  props f !! k = Some (VObj Plain a) ->
  normalize_extensions f k =
    let! e := lowered (a !! "extensions") in
    inr (with_props f (<[k := VObj Plain (<["extensions" := e]> a)]> (props f))).
Proof.
  intros Hf Hname Hlen Hk. unfold normalize_extensions, lowered.
  rewrite get_object, Hk by done. simpl.
  destruct (a !! "extensions") as [[| |[]|n| |s|l m|[|n] m]|] eqn:He; simpl;
    rewrite ?set_object by done; try done.
  - destruct (n =? 0)%Z; simpl; by rewrite ?set_object.
  - destruct (String.eqb s ""); simpl; by rewrite ?set_object.
  - destruct (lowercase_all l) as [e|l']; simpl; by rewrite ?set_object.
Qed.

Lemma normalize_contentTypes_object f k a :
  is_object f = true -> k ≠ "name" -> k ≠ "length" ->
  props f !! k = Some (VObj Plain a) ->
  normalize_contentTypes f k =
    inr (with_props f
           (<[k := VObj Plain (<["contentTypes" := kept_array (a !! "contentTypes")]> a)]>
              (props f))).
Proof.
  intros Hf Hname Hlen Hk. unfold normalize_contentTypes, kept_array.
  rewrite get_object, Hk by done. simpl.
  destruct (a !! "contentTypes") as [[| |[]|n| |s|l m|[|n] m]|] eqn:He; simpl;
    rewrite ?set_object by done; try done.
  - destruct (n =? 0)%Z; simpl; by rewrite ?set_object.
  - destruct (String.eqb s ""); simpl; by rewrite ?set_object.
  - by rewrite (insert_id a "contentTypes").
Qed.

(** Lines 73-105 on a filter that is an object: the normalisation acts on
    its properties alone. *)
Lemma normalize_filter_object f :
  is_object f = true ->
  normalize_filter f = let! m := norm_props (props f) in inr (with_props f m).
Proof.
  intros Hf. unfold normalize_filter.
  assert (truthy f = true) as -> by by destruct f.
  rewrite normalize_side_object by done. simpl.
  set (m := props f). unfold side. fold m.
  set (a0 := plain_props (m !! "allow")).
  rewrite normalize_side_object by (by rewrite ?is_object_with_props).
  simpl. unfold side. rewrite !props_with_props by done.
  rewrite lookup_insert_ne by done. fold m.
  set (d0 := plain_props (m !! "deny")).
  rewrite normalize_maxSize_object by (by rewrite ?is_object_with_props).
  simpl. rewrite !with_props_twice, !props_with_props by done.
  rewrite !lookup_insert_ne by done.
  set (m3 := <["maxSize" := _]> _).
  rewrite (normalize_extensions_object _ "allow" a0);
    [|by rewrite ?is_object_with_props|done|done|].
  2:{ rewrite props_with_props by done. unfold m3.
      rewrite !lookup_insert_ne by done. apply lookup_insert_eq. }
  unfold norm_props, norm_side. fold m a0 d0.
  destruct (lowered (a0 !! "extensions")) as [e|ea]; [done|]. simpl.
  rewrite !with_props_twice, !props_with_props by done.
  rewrite (normalize_contentTypes_object _ "allow" (<["extensions" := ea]> a0));
    [|by rewrite ?is_object_with_props|done|done|].
  2:{ rewrite props_with_props by done. apply lookup_insert_eq. }
  simpl. rewrite !with_props_twice, !props_with_props by done.
  rewrite (lookup_insert_ne a0) by done.
  set (m5 := <["allow" := _]> (<["allow" := _]> m3)).
  rewrite (normalize_extensions_object _ "deny" d0);
    [|by rewrite ?is_object_with_props|done|done|].
  2:{ rewrite props_with_props by done. unfold m5, m3.
      rewrite !lookup_insert_ne by done. apply lookup_insert_eq. }
  destruct (lowered (d0 !! "extensions")) as [e|ed]; [done|]. simpl.
  rewrite !with_props_twice, !props_with_props by done.
  rewrite (normalize_contentTypes_object _ "deny" (<["extensions" := ed]> d0));
    [|by rewrite ?is_object_with_props|done|done|].
  2:{ rewrite props_with_props by done. apply lookup_insert_eq. }
  rewrite !with_props_twice, !props_with_props by done.
  rewrite (lookup_insert_ne d0) by done.
  f_equal. f_equal. unfold m5, m3.
  apply map_eq. intros j.
  destruct (decide (j = "deny")) as [->|]; [by rewrite !lookup_insert_eq|].
  rewrite !(lookup_insert_ne _ "deny") by done.
  destruct (decide (j = "allow")) as [->|]; [by rewrite !lookup_insert_eq|].
  rewrite !(lookup_insert_ne _ "allow") by done.
  destruct (decide (j = "maxSize")) as [->|]; [by rewrite !lookup_insert_eq|].
  rewrite !(lookup_insert_ne _ "maxSize") by done.
  by rewrite !(lookup_insert_ne _ "deny"), !(lookup_insert_ne _ "allow") by done.
Qed.

(** *** What can be thrown *)

Lemma bind_TypeError_only {A B} (x : exn + A) (g : A -> exn + B) :
  throws_TypeError_only x -> (forall y, throws_TypeError_only (g y)) ->
  throws_TypeError_only (bind x g).
Proof.
  intros Hx Hg e. destruct x as [e'|y]; simpl.
  - intros [= <-]. by apply Hx.
  - apply Hg.
Qed.

Lemma inr_TypeError_only {A} (y : A) : throws_TypeError_only (inr y).
Proof. by intros e. Qed.

Lemma get_TypeError_only v k : throws_TypeError_only (get v k).
Proof. intros e. destruct v as [| | | | | | |[]]; simpl; congruence. Qed.

Lemma set_TypeError_only v k w : throws_TypeError_only (set v k w).
Proof. intros e. destruct v; simpl; congruence. Qed.

Lemma lowercase_all_TypeError_only l : throws_TypeError_only (lowercase_all l).
Proof.
  induction l as [|v l IH]; [by apply inr_TypeError_only|].
  destruct v; simpl; try (by intros e [= <-]).
  apply bind_TypeError_only; [done|]. intros. apply inr_TypeError_only.
Qed.

Create HintDb throws.
Local Hint Resolve inr_TypeError_only get_TypeError_only set_TypeError_only
  lowercase_all_TypeError_only : throws.

Local Ltac throws :=
  repeat first
    [ apply bind_TypeError_only; [|intros ?]
    | match goal with |- throws_TypeError_only (if ?b then _ else _) => destruct b end
    | match goal with |- throws_TypeError_only (match ?v with _ => _ end) => destruct v end
    | solve [auto with throws] ].

Lemma normalize_filter_TypeError_only f : throws_TypeError_only (normalize_filter f).
Proof.
  unfold normalize_filter, normalize_side, normalize_maxSize,
    normalize_extensions, normalize_contentTypes.
  throws.
Qed.

Lemma define_all_TypeError_only cname stores acc :
  throws_TypeError_only (define_all cname stores acc).1.
Proof.
  revert acc. induction stores as [|v stores IH]; intros acc; [by intros e|].
  destruct v as [| | | | | | |[|n]]; simpl; try (by intros e [= <-]).
  apply IH.
Qed.

(** On the server every adapter of the list is handed its callbacks. *)
Lemma define_all_adapters cname names acc :
  define_all cname (map (fun n => VObj (Adapter n) ∅) names) acc =
    (inr tt, (acc ++ map (fun n => (n, cname)) names)%list).
Proof.
  revert acc. induction names as [|n names IH]; intros acc; simpl.
  - by rewrite app_nil_r.
  - by rewrite IH, <-app_assoc.
Qed.

(** *** Lines 20-39: defaults, options and the stores check *)

(** [self.options.k] after line 30: the supplied value when there is
    one, the default otherwise. *)
Lemma opt_merged options k :
  opt (merged options) k =
    match supplied options k with
    | Some v => v
    | None => opt default_options k
    end.
Proof.
  unfold merged, extend, supplied, opt.
  assert (truthy (or_else options (VObj Plain ∅)) = true) as ->.
  { unfold or_else. by destruct (truthy options) eqn:H. }
  rewrite lookup_union.
  destruct (for_in _ !! k), (default_options !! k); reflexivity.
Qed.


(** C2. Without a list of stores, or with an empty one, construction
    throws the error of line 38 and leaves the registry, the document
    database and the stores as they were; with a list of at least one
    store, whatever construction does, it does not throw that error. *)
Theorem stores_are_required env name options w :
  (no_stores options ->
     construct env name options w = (inl no_store_error, w)) /\
  (forall s l m, supplied options "stores" = Some (VArr (s :: l) m) ->
     (construct env name options w).1 ≠ inl no_store_error).
Proof.
  split.
  - intros Hno. unfold construct. rewrite opt_merged.
    destruct Hno as [-> | [-> | [-> | [m ->]]]]; reflexivity.
  - intros s l m Hs. unfold construct. rewrite opt_merged, Hs. simpl.
    set (o := merged options).
    pose proof (normalize_filter_TypeError_only (opt o "filter")) as Hf.
    destruct (normalize_filter (opt o "filter")) as [e|f]; simpl.
    { rewrite (Hf e eq_refl). discriminate. }
    destruct (isServer env); [|discriminate].
    match goal with |- context [define_all ?c ?st ?acc] =>
      pose proof (define_all_TypeError_only c st acc) as Hd;
      destruct (define_all c st acc) as [[e|[]] sy] end; simpl in *.
    + rewrite (Hd e eq_refl). discriminate.
    + discriminate.
Qed.


(** *** Lines 83-101: lowercasing *)

Lemma lower_ascii_idemp c : lower_ascii (lower_ascii c) = lower_ascii c.
Proof. by destruct c as [[] [] [] [] [] [] [] []]. Qed.

Lemma toLowerCase_idemp s : toLowerCase (toLowerCase s) = toLowerCase s.
Proof. apply toLowerCase_twice. Qed.

Lemma lowercase_all_strings l :
  forallb is_string l = true -> lowercase_all l = inr (map lower_value l).
Proof.
  induction l as [|v l IH]; [done|]. simpl.
  intros [Hv Hl]%andb_prop. destruct v; try done. simpl. by rewrite IH.
Qed.

Lemma lowercase_all_inr l l' :
  lowercase_all l = inr l' ->
  l' = map lower_value l /\ Forall is_lowercase l'.
Proof.
  revert l'. induction l as [|v l IH]; intros l'; simpl.
  - intros [= <-]. by split.
  - destruct v; try done. destruct (lowercase_all l) as [e|r]; [done|]. simpl.
    intros [= <-]. destruct (IH r eq_refl) as [-> Hr]. split; [done|].
    constructor; [|done]. eexists. split; [done|]. apply toLowerCase_idemp.
Qed.


(** *** Lines 73-105: the filter *)

(** What a successful normalisation of a side leaves in it. *)
Lemma norm_side_inr a a' :
  norm_side a = inr a' ->
  a' !! "extensions" = Some (lower_array (kept_array (a !! "extensions"))) /\
  a' !! "contentTypes" = Some (kept_array (a !! "contentTypes")) /\
  (forall j, j ≠ "extensions" -> j ≠ "contentTypes" -> a' !! j = a !! j) /\
  (forall l m, a' !! "extensions" = Some (VArr l m) -> Forall is_lowercase l).
Proof.
  unfold norm_side, lowered.
  destruct (a !! "extensions") as [[| | | | | |l m|]|] eqn:He; simpl;
    try (intros [= <-]; rewrite lookup_insert_eq, lookup_insert_ne, lookup_insert_eq by done;
         repeat split; try done;
         [ by intros j ? ?; rewrite !lookup_insert_ne
         | by intros ? ? [= <- <-] ]).
  destruct (lowercase_all l) as [e|l'] eqn:Hl; [done|]. simpl. intros [= <-].
  apply lowercase_all_inr in Hl as [-> Hlow].
  rewrite lookup_insert_eq, lookup_insert_ne, lookup_insert_eq by done.
  repeat split; try done.
  - by intros j ? ?; rewrite !lookup_insert_ne.
  - by intros ? ? [= <- <-].
Qed.

Lemma norm_side_strings a :
  forallb is_string
    (match a !! "extensions" with Some (VArr l _) => l | _ => [] end) = true ->
  exists a', norm_side a = inr a'.
Proof.
  unfold norm_side, lowered.
  destruct (a !! "extensions") as [[| | | | | |l m|]|]; simpl; try by eauto.
  intros ->%lowercase_all_strings. simpl. by eauto.
Qed.

(** C7 as the code has it. A falsy filter is left alone. A filter that is
    an object, and whose [allow.extensions] and [deny.extensions] hold
    strings only where they are arrays of a plain-object [allow] or
    [deny], is normalised without an exception: [maxSize] is kept when it
    is a non-zero number and is null otherwise; [allow] and [deny] are
    plain objects, with the properties they had when they were plain
    objects already; in both, [extensions] is the array it was with its
    strings in lower case, or the empty list when it was no array, and
    [contentTypes] is the array it was, or the empty list; every other
    property is as supplied. *)
Theorem normalize_filter_defaults f :
  (truthy f = false -> normalize_filter f = inr f) /\
  (is_object f = true ->
   forallb is_string (exts f "allow") = true ->
   forallb is_string (exts f "deny") = true ->
   exists f',
     normalize_filter f = inr f' /\
     props f' !! "maxSize" = Some (kept_maxSize (props f !! "maxSize")) /\
     (forall k, k = "allow" \/ k = "deny" ->
        exists a',
          props f' !! k = Some (VObj Plain a') /\
          a' !! "extensions" =
            Some (lower_array (kept_array (side f k !! "extensions"))) /\
          a' !! "contentTypes" = Some (kept_array (side f k !! "contentTypes")) /\
          (forall j, j ≠ "extensions" -> j ≠ "contentTypes" ->
             a' !! j = side f k !! j)) /\
     (forall j, j ≠ "allow" -> j ≠ "deny" -> j ≠ "maxSize" ->
        props f' !! j = props f !! j)).
Proof.
  split.
  { intros Hf. unfold normalize_filter. by rewrite Hf. }
  intros Hf Ha Hd. rewrite normalize_filter_object by done.
  unfold norm_props, exts, side in *.
  destruct (norm_side_strings _ Ha) as [a' Ha'].
  destruct (norm_side_strings _ Hd) as [d' Hd'].
  rewrite Ha', Hd'. simpl. eexists. split; [reflexivity|].
  rewrite props_with_props by done.
  apply norm_side_inr in Ha' as (Hae & Hac & Hao & _).
  apply norm_side_inr in Hd' as (Hde & Hdc & Hdo & _).
  split; [by rewrite !lookup_insert_ne, lookup_insert_eq by done|]. split.
  - intros k [-> | ->].
    + exists a'. by rewrite lookup_insert_ne, lookup_insert_eq by done.
    + exists d'. by rewrite lookup_insert_eq.
  - intros j ? ? ?. by rewrite !lookup_insert_ne by done.
Qed.

(** *** Letter case of the extensions *)





(** Filters that are alike but for the letter case of the strings of
    [allow.extensions] have the same image under [fold_case]; the same
    holds on the [deny] side. *)
Lemma fold_case_allow_extensions c m a l1 l2 em :
  map lower_value l1 = map lower_value l2 ->
  fold_case (VObj c (<["allow" := VObj Plain (<["extensions" := VArr l1 em]> a)]> m)) =
  fold_case (VObj c (<["allow" := VObj Plain (<["extensions" := VArr l2 em]> a)]> m)).
Proof.
  intros Hl. unfold fold_case. simpl. f_equal. f_equal.
  apply map_eq. intros j.
  destruct (decide (j = "allow")) as [->|].
  - rewrite !lookup_alter_eq, !lookup_insert_eq. simpl.
    by rewrite !lookup_insert_eq, !insert_insert_eq, Hl.
  - rewrite !lookup_alter_ne, !lookup_insert_ne by done. reflexivity.
Qed.



End CtorFacts.

(** *** The statements above at sample inputs *)

Section CtorAtSamples.
Import JS Ctor.
Local Existing Instance ascii_host.

Lemma stores_are_required_witness :
  construct Sample.server "images" VUndefined Sample.world0 =
    (inl no_store_error, Sample.world0) /\
  (construct Sample.server "images" Sample.one_store Sample.world0).1 ≠
    inl no_store_error.
Proof.
  split.
  - apply stores_are_required. left. reflexivity.
  - eapply (proj2 (stores_are_required _ _ _ _)). reflexivity.
Defined.


(** A supplied chunk size replaces the default. *)
Example chunkSize_supplied :
  exists c,
    (construct Sample.server "images" Sample.small_chunks Sample.world0).1 = inr c /\
    opt (Ctor.options c) "chunkSize" = VNum 1024.
Proof. eexists. split; reflexivity. Qed.

(** C7 fails on the code: with a number among the allowed extensions the
    constructor throws a TypeError, at line 88, while the same options
    without the filter construct a collection. *)
Lemma filter_shape_can_throw :
  normalize_filter Sample.number_ext = inl TypeError /\
  (construct Sample.server "images" Sample.with_number_ext Sample.world0).1 =
    inl TypeError /\
  exists c, (construct Sample.server "images" Sample.one_store Sample.world0).1 = inr c.
Proof. split; [reflexivity|]. split; [reflexivity|]. eexists. reflexivity. Qed.

(** A filter that is a non-empty string: the property writes of lines
    74-82 are dropped and line 83 reads a property of undefined. *)
Example primitive_filter_throws : normalize_filter (VStr "images") = inl TypeError.
Proof. reflexivity. Qed.

(** A [maxSize] of 0 is a number and is replaced by null all the same. *)
Example zero_maxSize_becomes_null :
  exists f',
    normalize_filter (Sample.obj [("maxSize", VNum 0)]) = inr f' /\
    props f' !! "maxSize" = Some VNull.
Proof. eexists. split; reflexivity. Qed.

Lemma normalize_filter_defaults_witness :
  exists f',
    normalize_filter Sample.upper = inr f' /\
    props f' !! "maxSize" = Some (VNum 1000000) /\
    exists a', props f' !! "allow" = Some (VObj Plain a') /\
               a' !! "contentTypes" = Some (VArr [] ∅).
Proof.
  destruct (proj2 (normalize_filter_defaults Sample.upper))
    as (f' & Hn & Hmax & Hside & _); [reflexivity..|].
  exists f'. split; [exact Hn|]. split; [exact Hmax|].
  destruct (Hside "allow") as (a' & Ha & _ & Hct & _); [by left|].
  exists a'. split; [exact Ha | exact Hct].
Defined.


End CtorAtSamples.

(* ===================================================================== *)
(** ** The sync callbacks *)
(* ===================================================================== *)

Section SyncFacts.
Import Files.

Implicit Types (docs : Docs) (sel : File.t -> bool) (f : File.t).

Lemma findOne_Some sel docs id f :
  findOne sel docs = Some (id, f) -> docs !! id = Some f /\ sel f = true.
Proof.
  unfold findOne, find. intros H%head_Some_elem_of.
  apply list_elem_of_filter in H as [Hsel Hin].
  by apply elem_of_map_to_list in Hin.
Qed.

Lemma findOne_None sel docs :
  findOne sel docs = None <-> map_Forall (fun _ f => sel f = false) docs.
Proof.
  unfold findOne, find. rewrite head_None. split.
  - intros Hnil id f Hid. destruct (sel f) eqn:Hsel; [|done].
    assert ((id, f) ∈ filter (fun d => sel d.2 = true) (map_to_list docs)) as Hin.
    { apply list_elem_of_filter. split; [done|]. by apply elem_of_map_to_list. }
    rewrite Hnil in Hin. by apply elem_of_nil in Hin.
  - intros Hall.
    destruct (filter _ (map_to_list docs)) as [|[id f] l] eqn:Hl; [done|].
    assert ((id, f) ∈ filter (fun d => sel d.2 = true) (map_to_list docs)) as Hin.
    { rewrite Hl. left. }
    apply list_elem_of_filter in Hin as [Hsel Hin]. simpl in Hsel.
    apply elem_of_map_to_list in Hin. apply Hall in Hin. congruence.
Qed.

Lemma findOne_hit sel docs :
  (exists id f, docs !! id = Some f /\ sel f = true) ->
  exists id f, findOne sel docs = Some (id, f).
Proof.
  intros (id & f & Hid & Hsel).
  destruct (findOne sel docs) as [[id' f']|] eqn:Hfind; [by eauto|].
  apply findOne_None in Hfind. apply Hfind in Hid. congruence.
Qed.

Lemma fileInfo_copies store storeId info :
  FileInfo.copies (fileInfo store storeId info) = {[ store := copy_of storeId info ]}.
Proof. reflexivity. Qed.

(** *** The selector as a dotted path *)

Lemma split_dots_no_dot s : has_dot s = false -> split_dots s = [s].
Proof.
  induction s as [|c s IH]; [done|]. simpl.
  destruct (Ascii.eqb c "."); [done|]. simpl. intros H. by rewrite IH.
Qed.

Lemma split_dots_cons s : exists p ps, split_dots s = p :: ps.
Proof.
  induction s as [|c s (p & ps & IH)]; simpl; [by eauto|].
  destruct (Ascii.eqb c "."); [by eauto|]. rewrite IH. by eauto.
Qed.

Lemma split_dots_app a b :
  split_dots (a ++ String "." b) = (split_dots a ++ split_dots b)%list.
Proof.
  induction a as [|c a IH]; [reflexivity|]. simpl.
  destruct (Ascii.eqb c "."); simpl; [by rewrite IH|].
  rewrite IH. by destruct (split_dots_cons a) as (p & ps & ->).
Qed.

Lemma split_dots_has_dot s :
  has_dot s = true -> exists p q r, split_dots s = p :: q :: r.
Proof.
  induction s as [|c s IH]; [done|]. simpl.
  destruct (Ascii.eqb c ".") eqn:Hc; simpl.
  - intros _. destruct s as [|c' s']; simpl; [by eauto|].
    destruct (Ascii.eqb c' "."); [by eauto|].
    destruct (split_dots s'); by eauto.
  - intros (p & q & r & ->)%IH. by eauto.
Qed.

Lemma selector_path store :
  split_dots ("copies." ++ store ++ "._id") =
    ("copies" :: split_dots store ++ ["_id"])%list.
Proof.
  change ("copies." ++ store ++ "._id")
    with ("copies" ++ String "." (store ++ String "." "_id")).
  by rewrite !split_dots_app.
Qed.

(** With a dot in the store's name the path goes through a field of a
    copy descriptor, reaches a string or a number at best, and matches
    nothing. *)
Lemma selector_dotted store storeId f :
  has_dot store = true -> selector store storeId f = false.
Proof.
  intros (p & q & r & Hs)%split_dots_has_dot.
  unfold selector. rewrite selector_path, Hs. simpl.
  destruct (File.copies f !! p) as [c|]; simpl; [|done].
  assert (forall n, lookup_path (r ++ ["_id"]) (NStr n) = None) as Hstr
    by (by destruct r).
  assert (forall n, lookup_path (r ++ ["_id"]) (NNum n) = None) as Hnum
    by (by destruct r).
  repeat match goal with
         | |- context [if ?b then _ else _] => destruct b; simpl
         end; by rewrite ?Hstr, ?Hnum.
Qed.

(** Without one it reads [copies[store]._id]. *)
Lemma selector_plain store storeId f :
  has_dot store = false ->
  selector store storeId f =
    match File.copies f !! store with
    | Some c => bool_decide (Copy._id c = storeId)
    | None => false
    end.
Proof.
  intros Hs. unfold selector. rewrite selector_path, (split_dots_no_dot _ Hs). simpl.
  by destruct (File.copies f !! store).
Qed.

Lemma selector_true store storeId f :
  selector store storeId f = true <->
  has_dot store = false /\
  exists c, File.copies f !! store = Some c /\ Copy._id c = storeId.
Proof.
  destruct (has_dot store) eqn:Hs.
  - rewrite selector_dotted by done. split; [done|]. by intros [? _].
  - rewrite selector_plain by done. split.
    + destruct (File.copies f !! store) as [c|]; [|done].
      intros H%bool_decide_eq_true. by eauto.
    + intros (_ & c & -> & H). by apply bool_decide_eq_true.
Qed.

(** What the update handler leaves under the id of the record it found. *)
Lemma sync_update_found store storeId info docs id f :
  findOne (selector store storeId) docs = Some (id, f) ->
  sync_update store storeId info docs =
    <[id := File.mk (Info.name info) (Info.type info) (Info.size info)
                    (Info.utime info) {[ store := copy_of storeId info ]}
                    (File.data f)]> docs.
Proof.
  intros Hfind. unfold sync_update, update. rewrite Hfind.
  apply findOne_Some in Hfind as [-> _]. reflexivity.
Qed.

(** What the insert handler adds, and under which id. *)
Lemma sync_insert_fresh store storeId info buffer docs :
  docs !! fresh (dom docs) = None /\
  sync_insert store storeId info buffer docs =
    <[fresh (dom docs) :=
        File.mk (Info.name info) (Info.type info) (Info.size info)
                (Info.utime info) {[ store := copy_of storeId info ]}
                (Some (buffer, Info.type info))]> docs.
Proof.
  split; [|reflexivity].
  apply not_elem_of_dom, is_fresh.
Qed.


(** C4. External insert: the handler stores one new record, under an id
    no record had; its top-level name, type, size and utime are those of
    [info], its copies hold exactly one entry, from the reporting store's
    name to the descriptor with the backend id and the fields of [info],
    its content is the raw bytes, and every other record is as before. *)
Theorem sync_insert_creates store storeId info buffer docs :
  exists id f,
    docs !! id = None /\
    sync_insert store storeId info buffer docs = <[id := f]> docs /\
    File.name f = Info.name info /\ File.type f = Info.type info /\
    File.size f = Info.size info /\ File.utime f = Info.utime info /\
    File.copies f =
      {[ store := Copy.mk storeId (Info.name info) (Info.type info)
                          (Info.size info) (Info.utime info) ]} /\
    File.data f = Some (buffer, Info.type info).
Proof.
  destruct (sync_insert_fresh store storeId info buffer docs) as [Hnew Heq].
  eexists _, _. split; [exact Hnew|]. split; [exact Heq|]. by repeat split.
Qed.


(** C6. Lookup miss: when no record's copy for the reporting store has
    the backend id, the update handler and the remove handler both return
    with the documents exactly as they were. *)
Theorem sync_miss_is_noop store storeId info docs :
  map_Forall (fun _ f => selector store storeId f = false) docs ->
  sync_update store storeId info docs = docs /\
  sync_remove store storeId docs = docs.
Proof.
  intros Hmiss. split.
  - unfold sync_update. apply findOne_None in Hmiss. by rewrite Hmiss.
  - unfold sync_remove, remove. apply map_filter_id. intros id f Hid. exact (Hmiss id f Hid).
Qed.

(** C9. The copy a handler writes is current. The descriptor that both
    handlers put under the reporting store's name in [fileInfo] has the
    event's backend id and the name, type, size and utime of the top level
    of [fileInfo]; so has the one found under that name in the record the
    insert handler stores, and in the record the update handler leaves for
    the record it found. *)
Theorem written_copy_is_current store storeId info :
  (exists c,
     FileInfo.copies (fileInfo store storeId info) !! store = Some c /\
     Copy._id c = storeId /\
     Copy.name c = FileInfo.name (fileInfo store storeId info) /\
     Copy.type c = FileInfo.type (fileInfo store storeId info) /\
     Copy.size c = FileInfo.size (fileInfo store storeId info) /\
     Copy.utime c = FileInfo.utime (fileInfo store storeId info)) /\
  (forall buffer docs, exists id f c,
     docs !! id = None /\
     sync_insert store storeId info buffer docs !! id = Some f /\
     File.copies f !! store = Some c /\ Copy._id c = storeId /\
     Copy.name c = File.name f /\ Copy.type c = File.type f /\
     Copy.size c = File.size f /\ Copy.utime c = File.utime f) /\
  (forall docs id f0,
     findOne (selector store storeId) docs = Some (id, f0) ->
     exists f c,
       sync_update store storeId info docs !! id = Some f /\
       File.copies f !! store = Some c /\ Copy._id c = storeId /\
       Copy.name c = File.name f /\ Copy.type c = File.type f /\
       Copy.size c = File.size f /\ Copy.utime c = File.utime f).
Proof.
  split; [|split].
  - exists (copy_of storeId info). simpl. rewrite lookup_insert_eq. by repeat split.
  - intros buffer docs.
    destruct (sync_insert_fresh store storeId info buffer docs) as [Hnew ->].
    eexists _, _, _. split; [exact Hnew|]. rewrite lookup_insert_eq.
    split; [reflexivity|]. simpl. rewrite lookup_singleton_eq. by repeat split.
  - intros docs id f0 Hfind. rewrite (sync_update_found _ _ _ _ _ _ Hfind).
    eexists _, _. rewrite lookup_insert_eq.
    split; [reflexivity|]. simpl. rewrite lookup_singleton_eq. by repeat split.
Qed.

(** When one record only has the backend id for the reporting store, it
    is that record the update handler overwrites. *)
Lemma sync_update_only_match store storeId info docs id f :
  docs !! id = Some f -> selector store storeId f = true ->
  (forall id' f', docs !! id' = Some f' -> selector store storeId f' = true -> id' = id) ->
  sync_update store storeId info docs =
    <[id := File.mk (Info.name info) (Info.type info) (Info.size info)
                    (Info.utime info) {[ store := copy_of storeId info ]}
                    (File.data f)]> docs.
Proof.
  intros Hid Hsel Honly.
  destruct (findOne_hit (selector store storeId) docs) as (id' & f' & Hfind);
    [by eauto|].
  pose proof (findOne_Some _ _ _ _ Hfind) as [Hid' Hsel'].
  pose proof (Honly id' f' Hid' Hsel') as ->.
  rewrite (sync_update_found _ _ _ _ _ _ Hfind). congruence.
Qed.



Lemma sync_miss_is_noop_witness :
  sync_update "s3" "k9" Sample.png Sample.three_docs = Sample.three_docs /\
  sync_remove "s3" "k9" Sample.three_docs = Sample.three_docs.
Proof.
  apply sync_miss_is_noop.
  apply (bool_decide_unpack _). vm_compute. exact I.
Defined.

Lemma written_copy_is_current_witness :
  exists f c,
    sync_update "s3" "k2" Sample.png Sample.three_docs !! "1" = Some f /\
    File.copies f !! "s3" = Some c /\ Copy._id c = "k2" /\
    Copy.name c = File.name f /\ Copy.size c = File.size f.
Proof.
  destruct (written_copy_is_current "s3" "k2" Sample.png) as (_ & _ & Hupd).
  destruct (Hupd Sample.three_docs "1" (Sample.gif_at_s3)) as (f & c & H).
  - vm_compute. reflexivity.
  - exists f, c. tauto.
Defined.

End SyncFacts.

(* ===================================================================== *)
(** ** The deny rules *)
(* ===================================================================== *)

Section DenyFacts.
Import Files.

Variable fileIsAllowed : File.t -> bool.

(** The verdict of the update rule of lines 113-118 depends on the file
    it is handed alone, not on the fields or the modifier. *)
Lemma deny_update_ignores_modifier userId f fields m fields' m' :
  deny_update fileIsAllowed userId f fields m =
  deny_update fileIsAllowed userId f fields' m'.
Proof. reflexivity. Qed.

(** An insert from untrusted code never stores a record the filter
    rejects, whatever rules the application adds. *)
Lemma untrusted_insert_keeps_allowed insecure app userId f docs docs' :
  all_allowed fileIsAllowed docs ->
  untrusted_insert (installed fileIsAllowed insecure app) userId f docs = Some docs' ->
  all_allowed fileIsAllowed docs'.
Proof.
  unfold untrusted_insert, all_allowed. simpl. unfold deny_insert at 1.
  intros Hall Hins.
  destruct (fileIsAllowed f) eqn:Hf; simpl in Hins; [|discriminate].
  repeat match type of Hins with (if ?b then _ else _) = _ => destruct b end;
    try discriminate.
  injection Hins as <-. by apply map_Forall_insert_2.
Qed.

(** An update from untrusted code is refused when the stored record
    itself fails the filter, and only then by the constructor's rule. *)
Lemma untrusted_update_checks_stored userId id m docs f :
  docs !! id = Some f ->
  fileIsAllowed f = true ->
  untrusted_update (installed fileIsAllowed true Sample.no_rules) userId id m docs =
    Some (<[id := apply_set m f]> docs).
Proof.
  intros Hid Hf. unfold untrusted_update. rewrite Hid. simpl.
  unfold deny_update. by rewrite Hf.
Qed.

End DenyFacts.

(** C1 fails on the code. Under the rule set of the spec's scenario the
    untrusted insert of a.png (500000 bytes) is accepted and every stored
    record passes the filter; the untrusted update that sets its size to
    2000000 is then accepted as well, and the record it leaves in the
    collection fails the filter. *)
Theorem untrusted_update_stores_disallowed (matches : string -> string -> bool) :
  let allowed := Files.isAllowed matches (Some Sample.scenario) in
  let rules := Files.installed allowed true Sample.no_rules in
  exists docs1 docs2 f,
    Files.untrusted_insert rules None Sample.candidate ∅ = Some docs1 /\
    Files.all_allowed allowed docs1 /\
    Files.untrusted_update rules None "0" Sample.grow docs1 = Some docs2 /\
    docs2 !! "0" = Some f /\
    allowed f = false.
Proof.
  intros allowed rules.
  exists {[ "0" := Sample.candidate ]}. eexists. eexists.
  split; [reflexivity|]. split.
  { apply map_Forall_singleton. reflexivity. }
  split.
  { apply (untrusted_update_checks_stored allowed None "0" Sample.grow
             {[ "0" := Sample.candidate ]} Sample.candidate); reflexivity. }
  split; [apply lookup_insert_eq | reflexivity].
Qed.

(* ===================================================================== *)
(** ** More on the constructor *)
(* ===================================================================== *)

Section CtorMore.
Import JS Ctor Normal.
Context {host : Host}.

Implicit Types (f v : value) (m a : gmap string value) (k : string).

(** *** When the normalisation throws, and what it leaves *)

Lemma lowercase_all_inr_strings l l' :
  lowercase_all l = inr l' -> forallb is_string l = true.
Proof.
  revert l'. induction l as [|v l IH]; intros l'; [done|]. simpl.
  destruct v; try done. destruct (lowercase_all l) as [e|r]; [done|].
  intros _. exact (IH r eq_refl).
Qed.

Lemma lowercase_all_lowercase l :
  Forall is_lowercase l -> lowercase_all l = inr l.
Proof.
  induction 1 as [|v l (s & -> & Hs) _ IH]; [done|].
  simpl. by rewrite IH, Hs.
Qed.

Lemma norm_side_inr_strings a a' :
  norm_side a = inr a' ->
  forallb is_string
    (match a !! "extensions" with Some (VArr l _) => l | _ => [] end) = true.
Proof.
  unfold norm_side, lowered.
  destruct (a !! "extensions") as [[| | | | | |l m|]|]; try done.
  destruct (lowercase_all l) as [e|l'] eqn:Hl; [done|].
  intros _. by apply lowercase_all_inr_strings in Hl.
Qed.

Lemma norm_side_shape a a' :
  norm_side a = inr a' -> normalized_side (Some (VObj Plain a')).
Proof.
  intros H. destruct (norm_side_inr _ _ H) as (He & Hc & _ & Hlow).
  unfold normalized_side.
  destruct (a !! "extensions") as [[| | | | | |l m|]|];
    destruct (a !! "contentTypes") as [[| | | | | |ct cm|]|]; simpl in *;
    eexists _, _, _, _, _; (split; [reflexivity|]);
    (split; [exact He|]); (split; [by eapply Hlow|]); exact Hc.
Qed.

Lemma norm_side_fixed a :
  normalized_side (Some (VObj Plain a)) -> norm_side a = inr a.
Proof.
  intros (a0 & l & em & c & cm & [= <-] & He & Hlow & Hc).
  unfold norm_side, lowered. rewrite He, Hc. simpl.
  rewrite (lowercase_all_lowercase _ Hlow). simpl.
  by rewrite (insert_id a "extensions"), (insert_id a "contentTypes").
Qed.

(** A truthy filter that is no object: the writes of lines 74-82 are
    dropped and line 83 reads a property of undefined. *)
Lemma normalize_filter_primitive f :
  truthy f = true -> is_object f = false -> normalize_filter f = inl TypeError.
Proof.
  intros Ht Hf. unfold normalize_filter. rewrite Ht.
  destruct f; try done.
Qed.

Lemma normalize_filter_inr_strings f f' :
  is_object f = true -> normalize_filter f = inr f' ->
  forallb is_string (exts f "allow") = true /\
  forallb is_string (exts f "deny") = true.
Proof.
  intros Hf Hn. rewrite normalize_filter_object in Hn by done. unfold norm_props in Hn.
  destruct (norm_side (plain_props (props f !! "allow"))) as [e|a] eqn:Ha; [done|].
  destruct (norm_side (plain_props (props f !! "deny"))) as [e|d] eqn:Hd; [done|].
  apply norm_side_inr_strings in Ha, Hd. by split.
Qed.

Lemma lacks_toLowerCase_not_strings l :
  existsb lacks_toLowerCase l = true -> forallb is_string l = false.
Proof.
  induction l as [|v l IH]; [done|]. simpl.
  destruct v; simpl; done.
Qed.

(** X1. When the constructor throws on account of the filter (lines
    73-105). A filter that is truthy and no object, such as a non-empty
    string or a number other than 0, makes it throw a TypeError; so does a
    filter object when [allow.extensions] or [deny.extensions], read as
    the lines read them, holds undefined, null, a boolean or a number. *)
Theorem normalize_filter_throws f :
  (truthy f = true -> is_object f = false ->
   normalize_filter f = inl TypeError) /\
  (is_object f = true ->
   existsb lacks_toLowerCase (exts f "allow")
     || existsb lacks_toLowerCase (exts f "deny") = true ->
   normalize_filter f = inl TypeError).
Proof.
  split; [apply normalize_filter_primitive|].
  intros Hf Hbad.
  pose proof (normalize_filter_TypeError_only f) as Honly.
  destruct (normalize_filter f) as [e|f'] eqn:Hn; [by rewrite (Honly e eq_refl)|].
  destruct (normalize_filter_inr_strings _ _ Hf Hn) as [Ha Hd].
  apply orb_prop in Hbad as [H|H]; apply lacks_toLowerCase_not_strings in H; congruence.
Qed.

(** X2. A truthy filter that has been normalised has the shape later
    code relies on: [allow] and [deny] are plain objects, their
    [extensions] are arrays of lower-case strings and their
    [contentTypes] arrays, and [maxSize] is null or a number other than
    0. *)
Theorem normalize_filter_shape f f' :
  truthy f = true -> normalize_filter f = inr f' -> normalized f'.
Proof.
  intros Ht Hn. destruct (is_object f) eqn:Hf.
  2:{ by rewrite normalize_filter_primitive in Hn. }
  rewrite normalize_filter_object in Hn by done. unfold norm_props in Hn.
  destruct (norm_side (plain_props (props f !! "allow"))) as [e|a] eqn:Ha; [done|].
  destruct (norm_side (plain_props (props f !! "deny"))) as [e|d] eqn:Hd; [done|].
  simpl in Hn. injection Hn as <-.
  unfold normalized. rewrite is_object_with_props, props_with_props by done.
  split; [done|].
  rewrite lookup_insert_eq, lookup_insert_ne, lookup_insert_eq by done.
  rewrite !lookup_insert_ne, lookup_insert_eq by done.
  split; [by eapply norm_side_shape|]. split; [by eapply norm_side_shape|].
  unfold normalized_maxSize, kept_maxSize.
  destruct (props f !! "maxSize") as [[| | |n| | | |]|]; try by left.
  destruct (n =? 0)%Z eqn:Hz; [by left|]. right. exists n.
  split; [|done]. by apply Z.eqb_neq.
Qed.

(** X3. Normalising is idempotent: a filter that came out of lines
    73-105 goes through them again without an exception and unchanged. *)
Theorem normalize_filter_idempotent f f' :
  normalize_filter f = inr f' -> normalize_filter f' = inr f'.
Proof.
  intros Hn. destruct (truthy f) eqn:Ht.
  2:{ unfold normalize_filter in *. rewrite Ht in Hn. injection Hn as <-.
      by rewrite Ht. }
  destruct (normalize_filter_shape _ _ Ht Hn) as (Hf & Ha & Hd & Hm).
  rewrite normalize_filter_object by done. unfold norm_props.
  pose proof Ha as (a & ? & ? & ? & ? & Hal & _).
  pose proof Hd as (d & ? & ? & ? & ? & Hdl & _).
  rewrite Hal, Hdl in *. simpl.
  rewrite (norm_side_fixed _ Ha), (norm_side_fixed _ Hd). simpl.
  assert (kept_maxSize (props f' !! "maxSize") = default VNull (props f' !! "maxSize")
          /\ is_Some (props f' !! "maxSize")) as [Hk [ms Hms]].
  { destruct Hm as [-> | (n & Hn0 & ->)]; simpl; [by eauto|].
    apply Z.eqb_neq in Hn0. rewrite Hn0. by eauto. }
  rewrite Hk, Hms. simpl.
  rewrite (insert_id _ "maxSize") by done.
  rewrite (insert_id _ "allow") by done.
  rewrite (insert_id _ "deny") by done.
  by rewrite with_props_same.
Qed.

(** *** What construction does to the world *)

Lemma merged_lookup options k :
  merged options !! k =
    match supplied options k with
    | Some v => Some v
    | None => default_options !! k
    end.
Proof.
  unfold merged, extend, supplied.
  assert (truthy (or_else options (VObj Plain ∅)) = true) as ->.
  { unfold or_else. by destruct (truthy options) eqn:H. }
  rewrite lookup_union. by destruct (for_in _ !! k), (default_options !! k).
Qed.

(** Adapters get their callbacks one after the other, whatever other
    properties they have; a value that is no adapter stops line 158. *)
Lemma define_all_good cname stores acc :
  forallb is_adapter stores = true ->
  define_all cname stores acc =
    (inr tt, (acc ++ map (fun n => (n, cname)) (store_names stores))%list).
Proof.
  revert acc. induction stores as [|v stores IH]; intros acc; simpl.
  - by rewrite app_nil_r.
  - destruct v as [| | | | | | |[|n] m]; try done. simpl. intros Hs.
    by rewrite IH, <-app_assoc.
Qed.

Lemma define_all_stops cname good bad rest acc :
  forallb is_adapter good = true ->
  is_adapter bad = false ->
  define_all cname (good ++ bad :: rest) acc =
    (inl TypeError, (acc ++ map (fun n => (n, cname)) (store_names good))%list).
Proof.
  intros Hgood Hbad. revert acc Hgood.
  induction good as [|v good IH]; intros acc Hgood; simpl.
  - rewrite app_nil_r. by destruct bad as [| | | | | | |[]].
  - simpl in Hgood. destruct v as [| | | | | | |[|n] m]; try done. simpl.
    by rewrite IH, <-app_assoc.
Qed.

(** The constructor once the stores check and the normalisation have
    passed. *)
Lemma construct_passed env name options w f :
  isEmpty (opt (merged options) "stores") = false ->
  normalize_filter (opt (merged options) "filter") = inr f ->
  let self :=
    mkCollection (<["filter" := f]> (merged options)) name (name ++ ".files")
      (if Package_join env then JoinCollection else MeteorCollection)
      (Package_insecure env) in
  construct env name options w =
    if isServer env then
      match define_all name (each_items (opt (merged options) "stores")) (synced w) with
      | (inl e, sy) => (inl e, registered name self w sy (observed w))
      | (inr _, sy) =>
          (inr self,
           registered name self w sy
             (if FileWorker env then (observed w ++ [name])%list else observed w))
      end
    else (inr self, registered name self w (synced w) (observed w)).
Proof.
  intros He Hf. unfold construct. rewrite He, Hf. simpl.
  unfold opt at 1. rewrite lookup_insert_ne by done. reflexivity.
Qed.

(** X4. A construction that returns has created the document collection
    [name + '.files'] once and has put the new object into
    [FS._collections] under [name], in the place of whatever was
    registered under that name; every other entry of the registry stays.
    The object carries the name, the name of its document collection, the
    kind chosen by [Package.join] and the allow rules chosen by
    [Package.insecure]. *)
Theorem construct_registers env name options w c w' :
  construct env name options w = (inr c, w') ->
  _collections w' = <[name := c]> (_collections w) /\
  created w' = (created w ++ [(name ++ ".files")%string])%list /\
  Ctor.name c = name /\ files c = name ++ ".files" /\
  kind c = (if Package_join env then JoinCollection else MeteorCollection) /\
  allow_all c = Package_insecure env.
Proof.
  unfold construct. intros H.
  destruct (isEmpty (opt (merged options) "stores")); [discriminate|].
  destruct (normalize_filter (opt (merged options) "filter")) as [e|f]; [discriminate|].
  destruct (isServer env).
  - destruct (define_all _ _ _) as [[e|[]] sy]; [discriminate|].
    by injection H as <- <-.
  - by injection H as <- <-.
Qed.

(** X5. What a construction that throws has done. The error of line 38
    leaves the world untouched. Any other exception is a TypeError, thrown
    after the document collection has been created: either by the filter
    normalisation, and then nothing is registered, no store has callbacks
    and the file worker is not told; or, on the server only, by a store
    that cannot take callbacks, and then the collection is in
    [FS._collections] already and the file worker is not told. *)
Theorem construct_throws env name options w e w' :
  construct env name options w = (inl e, w') ->
  (e = no_store_error /\ w' = w) \/
  (e = TypeError /\
   created w' = (created w ++ [(name ++ ".files")%string])%list /\
   ((normalize_filter (opt (merged options) "filter") = inl TypeError /\
     _collections w' = _collections w /\ synced w' = synced w /\
     observed w' = observed w) \/
    (isServer env = true /\ observed w' = observed w /\
     exists c, _collections w' = <[name := c]> (_collections w)))).
Proof.
  unfold construct. intros H.
  destruct (isEmpty (opt (merged options) "stores")).
  { injection H as <- <-. by left. }
  right.
  pose proof (normalize_filter_TypeError_only (opt (merged options) "filter")) as Hf.
  destruct (normalize_filter (opt (merged options) "filter")) as [e'|f].
  { injection H as <- <-. rewrite (Hf e' eq_refl). split; [done|]. split; [done|].
    by left. }
  destruct (isServer env); [|discriminate].
  match type of H with context [define_all ?c ?st ?acc] =>
    pose proof (define_all_TypeError_only c st acc) as Hd;
    destruct (define_all c st acc) as [[e'|[]] sy] end; [|discriminate].
  injection H as <- <-. simpl in Hd. rewrite (Hd e' eq_refl).
  split; [done|]. split; [done|]. right. by eauto.
Qed.

(** X6. On the server, a list of stores in which adapters are followed
    by a value that is no adapter makes the constructor throw a TypeError
    with the collection registered all the same: the adapters before that
    value, whatever their properties, have their callbacks, in the order
    of the list, the stores after it have none, and the file worker is not
    told. *)
Theorem construct_stops_at_bad_store env name options w good bad rest m f :
  isServer env = true ->
  supplied options "stores" = Some (VArr (good ++ bad :: rest) m) ->
  forallb is_adapter good = true ->
  is_adapter bad = false ->
  normalize_filter (opt (merged options) "filter") = inr f ->
  exists c,
    construct env name options w =
      (inl TypeError,
       registered name c w
         (synced w ++ map (fun n => (n, name)) (store_names good))%list
         (observed w)) /\
    Ctor.options c = <["filter" := f]> (merged options).
Proof.
  intros Hs Hst Hgood Hbad Hf.
  assert (opt (merged options) "stores" = VArr (good ++ bad :: rest) m) as Hopt.
  { unfold opt. by rewrite merged_lookup, Hst. }
  rewrite (construct_passed _ _ _ _ f), Hs, Hopt; [|rewrite Hopt|done].
  2:{ apply bool_decide_eq_false. by destruct good. }
  simpl. rewrite define_all_stops by done. eexists. split; reflexivity.
Qed.

(** X7. Off the server the constructor hands no callbacks to any store
    and does not tell the file worker, whatever it is given; it throws
    only for an empty list of stores or from the filter normalisation, so
    the stores need not be adapters there. *)
Theorem client_leaves_stores_alone env name options w r w' :
  isServer env = false ->
  construct env name options w = (r, w') ->
  synced w' = synced w /\ observed w' = observed w /\
  (forall e, r = inl e ->
     e = no_store_error \/
     normalize_filter (opt (merged options) "filter") = inl e).
Proof.
  unfold construct. intros Hs H.
  destruct (isEmpty (opt (merged options) "stores")).
  { injection H as <- <-. repeat split. intros e [= <-]. by left. }
  destruct (normalize_filter (opt (merged options) "filter")) as [e'|f].
  { injection H as <- <-. repeat split. intros e [= <-]. by right. }
  rewrite Hs in H. injection H as <- <-. by repeat split.
Qed.

(** X8. On the server, with a list of stores that are all adapters,
    whatever their properties, and a filter that normalises, construction
    returns; each store of the list has been handed callbacks for this
    collection, once and in the order of the list, after those registered
    before, and the file worker observes the collection exactly when
    there is a file worker. *)
Theorem server_registers_every_store env name options w stores m f :
  isServer env = true ->
  stores ≠ [] ->
  forallb is_adapter stores = true ->
  supplied options "stores" = Some (VArr stores m) ->
  normalize_filter (opt (merged options) "filter") = inr f ->
  exists c,
    construct env name options w =
      (inr c,
       registered name c w
         (synced w ++ map (fun n => (n, name)) (store_names stores))%list
         (if FileWorker env then (observed w ++ [name])%list else observed w)) /\
    Ctor.options c = <["filter" := f]> (merged options).
Proof.
  intros Hs Hne Hall Hst Hf.
  assert (opt (merged options) "stores" = VArr stores m) as Hopt.
  { unfold opt. by rewrite merged_lookup, Hst. }
  rewrite (construct_passed _ _ _ _ f), Hs, Hopt; [|rewrite Hopt|done].
  2:{ apply bool_decide_eq_false. by destruct stores. }
  simpl. rewrite define_all_good by done. eexists. split; reflexivity.
Qed.


End CtorMore.

(* ===================================================================== *)
(** ** More on the sync callbacks *)
(* ===================================================================== *)

Section SyncMore.
Import Files.

Implicit Types (docs : Docs) (f : File.t).

(** The record the insert handler stores matches the selector of its own
    event, unless the store's name has a dot. *)
Lemma selector_fileInfo store storeId info buffer :
  has_dot store = false ->
  selector store storeId
    (setDataFromBuffer buffer (Info.type info) (FS_File (fileInfo store storeId info)))
  = true.
Proof.
  intros Hs. rewrite selector_plain by done. simpl. rewrite lookup_insert_eq.
  by apply bool_decide_eq_true.
Qed.

Lemma selector_overwritten store storeId info data :
  has_dot store = false ->
  selector store storeId
    (File.mk (Info.name info) (Info.type info) (Info.size info) (Info.utime info)
             {[ store := copy_of storeId info ]} data) = true.
Proof.
  intros Hs. rewrite selector_plain by done. simpl. rewrite lookup_singleton_eq.
  by apply bool_decide_eq_true.
Qed.

(** X10. The insert handler does not look for a record that has the
    backend id already: every insert event adds one record, also a
    repeated one, and every record stored before stays as it was. A
    lookup by the event's store and backend id finds a record afterwards
    when the store's name has no dot; when it has one, the lookup finds
    nothing, not even the record just added. *)
Theorem sync_insert_always_adds store storeId info buffer docs :
  size (sync_insert store storeId info buffer docs) = S (size docs) /\
  docs ⊆ sync_insert store storeId info buffer docs /\
  (has_dot store = false ->
   exists id f,
     findOne (selector store storeId) (sync_insert store storeId info buffer docs)
       = Some (id, f)) /\
  (has_dot store = true ->
   findOne (selector store storeId) (sync_insert store storeId info buffer docs)
     = None).
Proof.
  destruct (sync_insert_fresh store storeId info buffer docs) as [Hnew Heq].
  split; [|split; [|split]].
  - rewrite Heq. by apply map_size_insert_None.
  - rewrite Heq. by apply insert_subseteq.
  - intros Hs. apply findOne_hit. eexists _, _. split.
    + unfold sync_insert, insert. simpl. apply lookup_insert_eq.
    + by apply selector_fileInfo.
  - intros Hs. apply findOne_None. intros id f _. by apply selector_dotted.
Qed.

(** X11. For a store whose name has no dot, a remove event undoes an
    insert event of the same store and backend id: removing after the
    insert gives what removing alone gives, and gives back the documents
    as they were when no record matched before. For a store whose name
    has a dot the remove event deletes nothing, and the inserted record
    stays. *)
Theorem sync_remove_after_insert store storeId info buffer docs :
  (has_dot store = false ->
   sync_remove store storeId (sync_insert store storeId info buffer docs) =
     sync_remove store storeId docs /\
   (map_Forall (fun _ f => selector store storeId f = false) docs ->
    sync_remove store storeId (sync_insert store storeId info buffer docs) = docs)) /\
  (has_dot store = true ->
   sync_remove store storeId (sync_insert store storeId info buffer docs) =
     sync_insert store storeId info buffer docs).
Proof.
  split.
  - intros Hs.
    assert (sync_remove store storeId (sync_insert store storeId info buffer docs) =
            sync_remove store storeId docs) as Heq.
    { destruct (sync_insert_fresh store storeId info buffer docs) as [Hnew _].
      unfold sync_remove, remove, sync_insert, insert. simpl.
      rewrite map_filter_insert_False.
      - by rewrite delete_id.
      - simpl. by rewrite selector_fileInfo. }
    split; [done|]. intros Hmiss. rewrite Heq.
    unfold sync_remove, remove. apply map_filter_id.
    intros id f Hid. exact (Hmiss id f Hid).
  - intros Hs. unfold sync_remove, remove. apply map_filter_id.
    intros id f _. simpl. by apply selector_dotted.
Qed.

(** X12. After a remove event no stored record has the backend id for
    that store: the same remove event again, and an update event for the
    same store and backend id, change nothing. *)
Theorem sync_remove_settles store storeId info docs :
  map_Forall (fun _ f => selector store storeId f = false)
    (sync_remove store storeId docs) /\
  sync_remove store storeId (sync_remove store storeId docs) =
    sync_remove store storeId docs /\
  sync_update store storeId info (sync_remove store storeId docs) =
    sync_remove store storeId docs.
Proof.
  assert (map_Forall (fun _ f => selector store storeId f = false)
            (sync_remove store storeId docs)) as Hnone.
  { intros id f Hid. unfold sync_remove, remove in Hid.
    by apply map_lookup_filter_Some in Hid as [_ Hsel]. }
  split; [done|]. split.
  - unfold sync_remove at 1, remove. apply map_filter_id.
    intros id f Hid. exact (Hnone id f Hid).
  - unfold sync_update. apply findOne_None in Hnone. by rewrite Hnone.
Qed.

(** X13. An update event never adds or drops a record, whether it finds
    one or not, and it leaves the set of records that have the backend id
    for the reporting store as it was. *)
Theorem sync_update_keeps_matches store storeId info docs :
  dom (sync_update store storeId info docs) = dom docs /\
  forall id,
    (exists f, sync_update store storeId info docs !! id = Some f /\
               selector store storeId f = true) <->
    (exists f, docs !! id = Some f /\ selector store storeId f = true).
Proof.
  destruct (findOne (selector store storeId) docs) as [[id0 f0]|] eqn:Hfind.
  - rewrite (sync_update_found _ _ _ _ _ _ Hfind).
    apply findOne_Some in Hfind as [Hid0 Hsel0]. split.
    + apply dom_insert_lookup_L. by exists f0.
    + pose proof (proj1 (selector_true _ _ _) Hsel0) as [Hs _].
      intros id. destruct (decide (id = id0)) as [->|Hne].
      * rewrite lookup_insert_eq. split; intros _.
        -- by exists f0.
        -- eexists. split; [reflexivity|]. by apply selector_overwritten.
      * by rewrite lookup_insert_ne.
  - unfold sync_update. by rewrite Hfind.
Qed.

(** X14. The record an update event overwrites is lost to every other
    store: it has no copy entry but the reporting store's, so it matches
    no backend id of another store, and a remove event of another store
    leaves it in place whatever backend id it carries. *)
Theorem sync_update_hides_from_other_stores store storeId info docs id f0 :
  findOne (selector store storeId) docs = Some (id, f0) ->
  exists f,
    sync_update store storeId info docs !! id = Some f /\
    dom (File.copies f) = {[ store ]} /\
    forall store' storeId', store' ≠ store ->
      selector store' storeId' f = false /\
      sync_remove store' storeId' (sync_update store storeId info docs) !! id = Some f.
Proof.
  intros Hfind. rewrite (sync_update_found _ _ _ _ _ _ Hfind).
  eexists. rewrite lookup_insert_eq. split; [reflexivity|]. simpl.
  split; [by rewrite dom_singleton_L|].
  intros store' storeId' Hne.
  assert (selector store' storeId'
            (File.mk (Info.name info) (Info.type info) (Info.size info)
               (Info.utime info) {[ store := copy_of storeId info ]} (File.data f0))
          = false) as Hsel.
  { apply not_true_is_false. intros (_ & c & Hc & _)%selector_true.
    simpl in Hc. by rewrite lookup_singleton_ne in Hc. }
  split; [done|].
  unfold sync_remove, remove. apply map_lookup_filter_Some.
  split; [apply lookup_insert_eq|done].
Qed.

(** X15. An insert event followed by an update event of the same store
    and backend id. For a store whose name has no dot, when no record
    matched before, the one record added carries the metadata of the
    update and the content loaded by the insert, and nothing else has
    changed. For a store whose name has a dot the update finds nothing and
    the documents stay as the insert left them. *)
Theorem sync_update_after_insert store storeId info info' buffer docs :
  (has_dot store = false ->
   map_Forall (fun _ f => selector store storeId f = false) docs ->
   sync_update store storeId info' (sync_insert store storeId info buffer docs) =
     <[fresh (dom docs) :=
         File.mk (Info.name info') (Info.type info') (Info.size info')
                 (Info.utime info') {[ store := copy_of storeId info' ]}
                 (Some (buffer, Info.type info))]> docs) /\
  (has_dot store = true ->
   sync_update store storeId info' (sync_insert store storeId info buffer docs) =
     sync_insert store storeId info buffer docs).
Proof.
  split.
  - intros Hs Hmiss.
    destruct (sync_insert_fresh store storeId info buffer docs) as [Hnew Heq].
    rewrite (sync_update_only_match store storeId info' _ (fresh (dom docs))
               (setDataFromBuffer buffer (Info.type info)
                  (FS_File (fileInfo store storeId info)))).
    + rewrite Heq. simpl. by rewrite insert_insert_eq.
    + unfold sync_insert, insert. simpl. apply lookup_insert_eq.
    + by apply selector_fileInfo.
    + intros id' f' Hid' Hsel'. destruct (decide (id' = fresh (dom docs))); [done|].
      rewrite Heq, lookup_insert_ne in Hid' by done.
      pose proof (Hmiss id' f' Hid'). simpl in *. congruence.
  - intros Hs. unfold sync_update.
    assert (findOne (selector store storeId)
              (sync_insert store storeId info buffer docs) = None) as ->; [|done].
    apply findOne_None. intros id f _. by apply selector_dotted.
Qed.

(** X16. Remove events commute: two of them, of whatever stores and
    backend ids, leave the same documents in either order. *)
Theorem sync_remove_commutes store storeId store' storeId' docs :
  sync_remove store storeId (sync_remove store' storeId' docs) =
  sync_remove store' storeId' (sync_remove store storeId docs).
Proof. unfold sync_remove, remove. apply map_filter_comm. Qed.

End SyncMore.

(* ===================================================================== *)
(** ** More on the deny rules *)
(* ===================================================================== *)

Section DenyMore.
Import Files.

Variable fileIsAllowed : File.t -> bool.

Implicit Types (docs : Docs) (f : File.t) (app : Rules).

(** X17. The insert rule of lines 110-112 cannot be overruled: whatever
    allow and deny rules the application registers and with or without the
    insecure package, an insert from untrusted code that is accepted
    stores a file that passes the filter, under a new id and as it was
    given; so a collection in which every record passes the filter stays
    one. *)
Theorem untrusted_insert_admits_allowed_only insecure app userId f docs docs' :
  untrusted_insert (installed fileIsAllowed insecure app) userId f docs = Some docs' ->
  fileIsAllowed f = true /\
  docs !! fresh (dom docs) = None /\
  docs' = <[fresh (dom docs) := f]> docs /\
  (all_allowed fileIsAllowed docs -> all_allowed fileIsAllowed docs').
Proof.
  intros Hins. pose proof Hins as Hins'.
  unfold untrusted_insert in Hins. simpl in Hins. unfold deny_insert at 1 in Hins.
  destruct (fileIsAllowed f) eqn:Hf; simpl in Hins; [|discriminate].
  repeat match type of Hins with (if ?b then _ else _) = _ => destruct b end;
    try discriminate.
  injection Hins as <-. split; [done|].
  split; [apply not_elem_of_dom, is_fresh|]. split; [done|].
  intros Hall. by eapply untrusted_insert_keeps_allowed.
Qed.

(** X18. The update rule of lines 113-118 judges the stored record: a
    record that fails the filter cannot be updated from untrusted code
    at all, whatever the modifier would make of it and whatever rules the
    application registers. *)
Theorem untrusted_update_of_disallowed_refused insecure app userId id m docs f :
  docs !! id = Some f ->
  fileIsAllowed f = false ->
  untrusted_update (installed fileIsAllowed insecure app) userId id m docs = None.
Proof.
  intros Hid Hf. unfold untrusted_update. rewrite Hid. simpl.
  unfold deny_update at 1. by rewrite Hf.
Qed.

(** X19. What the constructor's rules grant by themselves (lines
    122-146). Without the insecure package they grant nothing: as long as
    the application registers no allow rule, every insert and every update
    of a stored record from untrusted code is refused. With the insecure
    package, and no deny rule of the application, an insert is accepted
    exactly when the file passes the filter, and an update exactly when
    the stored record does. *)
Theorem constructor_rules_grant app userId f id m docs :
  (insert_allow app = [] ->
   untrusted_insert (installed fileIsAllowed false app) userId f docs = None) /\
  (update_allow app = [] -> is_Some (docs !! id) ->
   untrusted_update (installed fileIsAllowed false app) userId id m docs = None) /\
  (insert_deny app = [] ->
   untrusted_insert (installed fileIsAllowed true app) userId f docs =
     if fileIsAllowed f then Some (<[fresh (dom docs) := f]> docs) else None) /\
  (update_deny app = [] -> docs !! id = Some f ->
   untrusted_update (installed fileIsAllowed true app) userId id m docs =
     if fileIsAllowed f then Some (<[id := apply_set m f]> docs) else None).
Proof.
  split; [|split; [|split]].
  - intros Ha. unfold untrusted_insert. simpl. rewrite Ha. simpl.
    by destruct (deny_insert _ _ _ || _).
  - intros Ha [f' Hid]. unfold untrusted_update. rewrite Hid. simpl. rewrite Ha. simpl.
    by destruct (deny_update _ _ _ _ _ || _).
  - intros Hd. unfold untrusted_insert. simpl. rewrite Hd. simpl.
    unfold deny_insert. by destruct (fileIsAllowed f).
  - intros Hd Hid. unfold untrusted_update. rewrite Hid. simpl. rewrite Hd. simpl.
    unfold deny_update. by destruct (fileIsAllowed f).
Qed.

End DenyMore.

(* ===================================================================== *)
(** ** The further statements at sample inputs *)
(* ===================================================================== *)

Section MoreAtSamples.
Import JS Ctor Files Normal.
Local Existing Instance ascii_host.

Lemma normalize_filter_throws_witness :
  normalize_filter (VStr "images") = inl TypeError /\
  normalize_filter Sample.number_ext = inl TypeError.
Proof.
  split.
  - apply (proj1 (normalize_filter_throws (VStr "images"))); reflexivity.
  - apply (proj2 (normalize_filter_throws Sample.number_ext)); reflexivity.
Defined.

Lemma normalize_filter_shape_witness :
  exists f', normalize_filter Sample.upper = inr f' /\ normalized f'.
Proof.
  destruct (normalize_filter Sample.upper) as [e|f'] eqn:H.
  - vm_compute in H. discriminate.
  - exists f'. split; [reflexivity|].
    exact (normalize_filter_shape Sample.upper f' eq_refl H).
Defined.

Lemma normalize_filter_idempotent_witness :
  exists f', normalize_filter Sample.mixed = inr f' /\ normalize_filter f' = inr f'.
Proof.
  destruct (normalize_filter Sample.mixed) as [e|f'] eqn:H.
  - vm_compute in H. discriminate.
  - exists f'. split; [reflexivity|].
    exact (normalize_filter_idempotent Sample.mixed f' H).
Defined.

Lemma construct_registers_witness :
  exists c w',
    construct Sample.server "images" Sample.one_store Sample.world0 = (inr c, w') /\
    _collections w' = {[ "images" := c ]} /\
    created w' = ["images.files"].
Proof.
  destruct (construct Sample.server "images" Sample.one_store Sample.world0)
    as [[e|c] w'] eqn:H.
  - vm_compute in H. discriminate.
  - exists c, w'. split; [reflexivity|].
    destruct (construct_registers _ _ _ _ _ _ H) as (Hr & Hc & _).
    split; [exact Hr | exact Hc].
Defined.

Lemma construct_throws_witness :
  exists e w',
    construct Sample.server "images" Sample.with_number_ext Sample.world0 = (inl e, w') /\
    e = TypeError /\ created w' = ["images.files"].
Proof.
  destruct (construct Sample.server "images" Sample.with_number_ext Sample.world0)
    as [[e|c] w'] eqn:H.
  - exists e, w'. split; [reflexivity|].
    destruct (construct_throws _ _ _ _ _ _ H) as [[-> ->] | (-> & Hc & _)].
    + vm_compute in H. discriminate.
    + split; [reflexivity | exact Hc].
  - vm_compute in H. discriminate.
Defined.

Lemma construct_stops_at_bad_store_witness :
  exists c,
    construct Sample.server "images" Cases.region_then_name Sample.world0 =
      (inl TypeError, registered "images" c Sample.world0 [("s3", "images")] []).
Proof.
  destruct (construct_stops_at_bad_store Sample.server "images" Cases.region_then_name
              Sample.world0 [Cases.s3_in_region] (VStr "local") [Sample.s3] ∅ VNull)
    as (c & H & _); [reflexivity..|].
  exists c. exact H.
Defined.

Lemma client_leaves_stores_alone_witness :
  synced (construct Cases.client "images" Cases.store_by_name Sample.world0).2 = [].
Proof.
  destruct (construct Cases.client "images" Cases.store_by_name Sample.world0)
    as [r w'] eqn:H.
  exact (proj1 (client_leaves_stores_alone Cases.client _ _ _ _ _ eq_refl H)).
Defined.

Lemma server_registers_every_store_witness :
  exists c,
    construct Sample.server "images" Cases.with_region Sample.world0 =
      (inr c,
       registered "images" c Sample.world0
         [("s3", "images"); ("local", "images")] ["images"]).
Proof.
  destruct (server_registers_every_store Sample.server "images" Cases.with_region
              Sample.world0 [Cases.s3_in_region; Cases.local] ∅ VNull)
    as (c & H & _); [reflexivity|discriminate|reflexivity..|].
  exists c. exact H.
Defined.


Lemma sync_insert_always_adds_witness :
  (exists id f,
     findOne (selector "s3" "k9")
       (sync_insert "s3" "k9" Sample.png [] Sample.three_docs) = Some (id, f)) /\
  findOne (selector "my.store" "k9")
    (sync_insert "my.store" "k9" Sample.png [] Sample.three_docs) = None.
Proof.
  split.
  - apply (sync_insert_always_adds "s3" "k9" Sample.png [] Sample.three_docs).
    reflexivity.
  - apply (sync_insert_always_adds "my.store" "k9" Sample.png [] Sample.three_docs).
    reflexivity.
Defined.

Lemma sync_remove_after_insert_witness :
  sync_remove "s3" "k9" (sync_insert "s3" "k9" Sample.png [] Sample.three_docs) =
    Sample.three_docs.
Proof.
  apply (proj1 (sync_remove_after_insert "s3" "k9" Sample.png [] Sample.three_docs));
    [reflexivity|].
  apply (bool_decide_unpack _). vm_compute. exact I.
Defined.

Lemma sync_update_hides_from_other_stores_witness :
  exists f,
    sync_update "s3" "k2" Sample.png Sample.three_docs !! "1" = Some f /\
    dom (File.copies f) = {[ "s3" ]} /\
    sync_remove "local" "k2" (sync_update "s3" "k2" Sample.png Sample.three_docs) !! "1"
      = Some f.
Proof.
  destruct (sync_update_hides_from_other_stores "s3" "k2" Sample.png Sample.three_docs
              "1" Sample.gif_at_s3) as (f & Hf & Hdom & Hother).
  - vm_compute. reflexivity.
  - exists f. split; [exact Hf|]. split; [exact Hdom|].
    exact (proj2 (Hother "local" "k2" ltac:(discriminate))).
Defined.

Lemma sync_update_after_insert_witness :
  sync_update "s3" "k9" Sample.gif (sync_insert "s3" "k9" Sample.png [] Sample.three_docs)
    !! fresh (dom Sample.three_docs) =
  Some (File.mk "b.gif" "image/gif" 700 200 {[ "s3" := copy_of "k9" Sample.gif ]}
          (Some ([], "image/png"))).
Proof.
  rewrite (proj1 (sync_update_after_insert "s3" "k9" Sample.png Sample.gif []
                    Sample.three_docs)).
  - apply lookup_insert_eq.
  - reflexivity.
  - apply (bool_decide_unpack _). vm_compute. exact I.
Defined.

Lemma untrusted_insert_admits_allowed_only_witness :
  exists docs',
    untrusted_insert (installed Cases.scenario_filter true Sample.no_rules)
      None Sample.candidate ∅ = Some docs' /\
    Cases.scenario_filter Sample.candidate = true /\
    docs' = {[ "0" := Sample.candidate ]}.
Proof.
  destruct (untrusted_insert (installed Cases.scenario_filter true Sample.no_rules)
              None Sample.candidate ∅) as [docs'|] eqn:H.
  - exists docs'. split; [reflexivity|].
    destruct (untrusted_insert_admits_allowed_only _ _ _ _ _ _ _ H) as (Hf & _ & Hd & _).
    split; [exact Hf | exact Hd].
  - vm_compute in H. discriminate.
Defined.

Lemma untrusted_update_of_disallowed_refused_witness :
  untrusted_update (installed Cases.scenario_filter true Sample.no_rules)
    None "0" Cases.shrink Cases.with_big = None.
Proof.
  eapply untrusted_update_of_disallowed_refused; reflexivity.
Defined.

Lemma constructor_rules_grant_witness :
  untrusted_insert (installed Cases.scenario_filter false Sample.no_rules)
    None Sample.candidate ∅ = None /\
  untrusted_insert (installed Cases.scenario_filter true Sample.no_rules)
    None Sample.candidate ∅ = Some {[ "0" := Sample.candidate ]}.
Proof.
  destruct (constructor_rules_grant Cases.scenario_filter Sample.no_rules None
              Sample.candidate "0" Cases.shrink ∅) as (Hnone & _ & Hsome & _).
  split; [exact (Hnone eq_refl) | exact (Hsome eq_refl)].
Defined.

End MoreAtSamples.
